(** * Retirement engine: simulator, capital solver and withdrawal-rate classifier

    A shallow embedding of [RetirementPlanner] (src/app.py) and the
    properties of its three methods [calculate_viability],
    [solve_required_capital] and [calculate_swr_health].

    The Python code computes on numbers (ints supplied by the form widgets,
    binary64 floats as soon as a rate is involved).  The embedding is
    parametric in the arithmetic: every method is written once over an
    interface [Arith] and is then run on two instances,
      - [Q_arith]:     exact rational arithmetic (the formulas as written),
      - [float_arith]: IEEE-754 binary64, the arithmetic CPython uses.
    Properties of the control flow are proved for every instance; order and
    monotonicity properties are proved for the exact instance. *)

From Stdlib Require Import ZArith QArith Qreduction Qminmax List String Bool Lia Lqa.
From Stdlib Require Import PrimFloat Uint63 DecimalString.
Import ListNotations.

Open Scope Z_scope.

(** ** Arithmetic interface *)

(** The operations the planner uses on numbers.  [quot] is the quotient by a
    divisor already known to be non-zero; Python's [/] is [div] below, which
    raises on a zero divisor. [gt] is the comparison [max] uses. *)
Class Arith (num : Type) : Type := {
  of_int : Z -> num;
  add : num -> num -> num;
  sub : num -> num -> num;
  mul : num -> num -> num;
  quot : num -> num -> num;
  le : num -> num -> bool;
  gt : num -> num -> bool;
  is_zero : num -> bool
}.

(** Exact rationals, kept in lowest terms. *)
#[global] Instance Q_arith : Arith Q := {
  of_int := inject_Z;
  add x y := Qred (x + y);
  sub x y := Qred (x - y);
  mul x y := Qred (x * y);
  quot x y := Qred (x / y);
  le x y := Qle_bool x y;
  gt x y := negb (Qle_bool x y);
  is_zero x := Qeq_bool x 0
}.

(** Conversion of a Python int (of magnitude below 2^63) to binary64. *)
Definition float_of_int (z : Z) : float :=
  if z <? 0 then PrimFloat.opp (PrimFloat.of_uint63 (Uint63.of_Z (- z)))
  else PrimFloat.of_uint63 (Uint63.of_Z z).

(** binary64 with round-to-nearest-even, as in CPython. *)
#[global] Instance float_arith : Arith float := {
  of_int := float_of_int;
  add := PrimFloat.add;
  sub := PrimFloat.sub;
  mul := PrimFloat.mul;
  quot := PrimFloat.div;
  le := PrimFloat.leb;
  gt x y := PrimFloat.ltb y x;
  is_zero x := PrimFloat.eqb x PrimFloat.zero
}.

(** ** Exceptions *)

Inductive exn : Type := ZeroDivisionError.

Inductive result (A : Type) : Type :=
| Ok (a : A)
| Raise (e : exn).
Arguments Ok {A} a.
Arguments Raise {A} e.

Definition bind {A B : Type} (c : result A) (k : A -> result B) : result B :=
  match c with
  | Ok a => k a
  | Raise e => Raise e
  end.

Declare Scope result_scope.
Delimit Scope result_scope with result.
Notation "x <- c ;; k" := (bind c (fun x => k))
  (at level 61, c at next level, right associativity) : result_scope.

(** [for m in ms: s = body(m, s)], stopping at the first exception. *)
Fixpoint for_each {S : Type} (body : Z -> S -> result S) (ms : list Z) (s : S)
  : result S :=
  match ms with
  | [] => Ok s
  | m :: ms' => bind (body m s) (for_each body ms')
  end.

(** Python's [range(lo, hi)]. *)
Definition range (lo hi : Z) : list Z :=
  map (fun i => lo + Z.of_nat i) (seq 0 (Z.to_nat (hi - lo))).

(** [str(n)] for an int. *)
Definition str (n : Z) : string := NilZero.string_of_int (Z.to_int n).

(** ** Data model *)

Section Engine.

Context {num : Type} {arith : Arith num}.

(** The [inputs] dict, with its nine keys. *)
Record Inputs : Type := {
  lump_sum : num;
  other_income : num;
  current_dividends : num;
  target_payout : num;
  tax_rate : num;
  horizon_years : Z;
  inflation_rate : num;
  gdp_growth : num;
  expected_return : num
}.

(** The attributes of a [RetirementPlanner] object. *)
Record RetirementPlanner : Type := {
  self_inputs : Inputs;
  self_lump_sum : num;
  self_horizon_months : Z
}.

(** [RetirementPlanner.__init__]. *)
Definition init (inputs : Inputs) : RetirementPlanner :=
  {| self_inputs := inputs;
     self_lump_sum := lump_sum inputs;
     self_horizon_months := horizon_years inputs * 12 |}.

(** One row of the data frame returned by [calculate_viability]. *)
Record Row : Type := {
  Year : Z;
  Expenses_Net : num;
  Withdrawal_Gross : num;
  Balance : num
}.

(** The local variables of [calculate_viability] that live across months. *)
Record Locals : Type := {
  balance : num;
  current_div : num;
  current_expense : num;
  data : list Row;
  is_solvent : bool;
  insolvency_msg : string
}.

(** ** Operations *)

(** Python's [x / y]. *)
Definition div (x y : num) : result num :=
  if is_zero y then Raise ZeroDivisionError else Ok (quot x y).

(** Python's [max(0, x)]: the first argument is kept unless [x > 0]. *)
Definition max0 (x : num) : num :=
  if gt x (of_int 0) then x else of_int 0.

Definition year_of (m : Z) : Z := (m - 1) / 12 + 1.

(** "Crash Logic": the monthly growth rate in force in a given year. *)
Definition monthly_rate_of (self : RetirementPlanner)
    (crash_rate : num) (crash_years : Z) (year : Z) : num :=
  if year <=? crash_years then quot crash_rate (of_int 12)
  else quot (expected_return (self_inputs self)) (of_int 12).

(** "Inflation Adjustments": the yearly escalation of dividends and
    expenses, at the first month of every year after the first. *)
Definition escalate (self : RetirementPlanner) (m : Z) (cd ce : num)
  : num * num :=
  if (1 <? m) && ((m - 1) mod 12 =? 0)
  then (mul cd (add (of_int 1) (gdp_growth (self_inputs self))),
        mul ce (add (of_int 1) (inflation_rate (self_inputs self))))
  else (cd, ce).

(** The gross (pre-tax) withdrawal for dividends [cd] and expenses [ce]. *)
Definition gross_withdrawal_of (self : RetirementPlanner) (cd ce : num)
  : result num :=
  let total_income := add (other_income (self_inputs self)) cd in
  let net_shortfall := max0 (sub ce total_income) in
  div net_shortfall (sub (of_int 1) (tax_rate (self_inputs self))).

Definition depleted_msg (year : Z) : string :=
  String.append "DEPLETED (Year " (String.append (str year) ")").

(** The body of the monthly loop of [calculate_viability]. *)
Definition month (self : RetirementPlanner) (crash_rate : num)
    (crash_years : Z) (m : Z) (st : Locals) : result Locals :=
  let year := year_of m in
  let monthly_rate := monthly_rate_of self crash_rate crash_years year in
  let '(cd, ce) := escalate self m (current_div st) (current_expense st) in
  let bal := add (balance st) (mul (balance st) monthly_rate) in
  (gross_withdrawal <- gross_withdrawal_of self cd ce ;;
   let bal := sub bal gross_withdrawal in
   let hit := le bal (of_int 0) && is_solvent st in
   let solvent := if hit then false else is_solvent st in
   let msg := if hit then depleted_msg year else insolvency_msg st in
   let bal := if hit then of_int 0 else bal in
   let rows :=
     if (m mod 12 =? 0) || (m =? self_horizon_months self)
     then (data st ++ [{| Year := year;
                          Expenses_Net := ce;
                          Withdrawal_Gross := gross_withdrawal;
                          Balance := bal |}])%list
     else data st in
   Ok {| balance := bal; current_div := cd; current_expense := ce;
         data := rows; is_solvent := solvent; insolvency_msg := msg |})%result.

(** The locals before the first month. *)
Definition start (self : RetirementPlanner) : Locals :=
  {| balance := self_lump_sum self;
     current_div := current_dividends (self_inputs self);
     current_expense := target_payout (self_inputs self);
     data := [];
     is_solvent := true;
     insolvency_msg := "Solvent" |}.

(** The locals after the months [1 .. k] (the whole loop when
    [k = self_horizon_months self]). *)
Definition run_months (self : RetirementPlanner) (crash_rate : num)
    (crash_years : Z) (k : Z) : result Locals :=
  for_each (month self crash_rate crash_years) (range 1 (k + 1)) (start self).

(** [RetirementPlanner.calculate_viability]: the data frame (as the list of
    its rows), the solvency flag and the status message. *)
Definition calculate_viability (self : RetirementPlanner)
    (crash_rate : num) (crash_years : Z)
  : result (list Row * bool * string) :=
  (st <- run_months self crash_rate crash_years (self_horizon_months self) ;;
   Ok (data st, is_solvent st, insolvency_msg st))%result.

(** *** Methods that assign to [self]

    A method is a function of the planner object that yields a value or an
    exception together with the object as the method left it. *)
Definition Method (A : Type) : Type :=
  RetirementPlanner -> result A * RetirementPlanner.

Definition ret {A : Type} (a : A) : Method A := fun self => (Ok a, self).

Definition mbind {A B : Type} (c : Method A) (k : A -> Method B) : Method B :=
  fun self =>
    match c self with
    | (Ok a, self') => k a self'
    | (Raise e, self') => (Raise e, self')
    end.

Definition get_self : Method RetirementPlanner := fun self => (Ok self, self).

(** The planner after [self.lump_sum = v]. *)
Definition with_lump_sum (self : RetirementPlanner) (v : num)
  : RetirementPlanner :=
  {| self_inputs := self_inputs self;
     self_lump_sum := v;
     self_horizon_months := self_horizon_months self |}.

(** [self.lump_sum = v]. *)
Definition set_lump_sum (v : num) : Method unit :=
  fun self => (Ok tt, with_lump_sum self v).

(** A call of a method that only reads [self]. *)
Definition call {A : Type} (f : RetirementPlanner -> result A) : Method A :=
  fun self => (f self, self).

Fixpoint repeat_body {S : Type} (n : nat) (body : S -> Method S) (s : S)
  : Method S :=
  match n with
  | O => ret s
  | S n' => mbind (body s) (repeat_body n' body)
  end.

(** One iteration of the bisection: the pair is [(low, high)]. *)
Definition bisect (crash_rate : num) (crash_years : Z) (lh : num * num)
  : Method (num * num) :=
  let '(low, high) := lh in
  let mid := quot (add low high) (of_int 2) in
  mbind (set_lump_sum mid) (fun _ =>
  mbind (call (fun self => calculate_viability self crash_rate crash_years))
    (fun r =>
       let '(_, solvent, _) := r in
       ret (if solvent : bool then (low, mid) else (mid, high)))).

(** [RetirementPlanner.solve_required_capital]. *)
Definition solve_required_capital (crash_rate : num) (crash_years : Z)
  : Method num :=
  mbind get_self (fun self =>
  let original_balance := self_lump_sum self in
  let low := self_lump_sum self in
  let high := mul (self_lump_sum self) (of_int 10) in
  mbind (repeat_body 30 (bisect crash_rate crash_years) (low, high))
    (fun lh =>
       let required := snd lh in
       mbind (set_lump_sum original_balance) (fun _ => ret required))).

(** The tier labels [calculate_swr_health] returns. *)
Definition SECURE : string := "SECURE".
Definition CRITICAL : string := "CRITICAL".
Definition EXCELLENT : string := "EXCELLENT (< 3.5%)".
Definition GOOD : string := "GOOD (Industry Std)".
Definition RISKY : string := "RISKY (High Risk)".
Definition DANGER : string := "DANGER (> 6.0%)".

(** [RetirementPlanner.calculate_swr_health]: the rate and the tier label. *)
Definition calculate_swr_health (self : RetirementPlanner)
  : result (num * string) :=
  let inputs := self_inputs self in
  let initial_gap :=
    sub (target_payout inputs)
        (add (other_income inputs) (current_dividends inputs)) in
  if le initial_gap (of_int 0) then Ok (of_int 0, SECURE)
  else
    (gross_annual <- div (mul initial_gap (of_int 12))
                         (sub (of_int 1) (tax_rate inputs)) ;;
     if le (self_lump_sum self) (of_int 0)
     then Ok (of_int 0, CRITICAL)
     else
       (rate <- div gross_annual (self_lump_sum self) ;;
        if le rate (quot (of_int 35) (of_int 1000))
        then Ok (rate, EXCELLENT)
        else if le rate (quot (of_int 45) (of_int 1000))
        then Ok (rate, GOOD)
        else if le rate (quot (of_int 6) (of_int 100))
        then Ok (rate, RISKY)
        else Ok (rate, DANGER)))%result.

(** ** Observations used in the statements *)

(** The solvency verdict of the simulator started from capital [c]. *)
Definition solvent_at (self : RetirementPlanner) (crash_rate : num)
    (crash_years : Z) (c : num) : bool :=
  match calculate_viability (with_lump_sum self c) crash_rate crash_years with
  | Ok (_, solvent, _) => solvent
  | Raise _ => false
  end.

(** The bisection of [solve_required_capital] against a given verdict
    function: [n] halvings of the bracket [(low, high)]. *)
Fixpoint bisection (oracle : num -> bool) (n : nat) (low high : num)
  : num * num :=
  match n with
  | O => (low, high)
  | S n' =>
      let mid := quot (add low high) (of_int 2) in
      if oracle mid then bisection oracle n' low mid
      else bisection oracle n' mid high
  end.

(** The balance sampled for year [y] in a data frame. *)
Definition balance_at_year (y : Z) (rows : list Row) : option num :=
  option_map Balance (find (fun r => Year r =? y) rows).

(** The balance of the last row ([df.iloc[-1]['Balance']]). *)
Definition final_balance (rows : list Row) : option num :=
  option_map Balance (last (map Some rows) None).

(** The stress test's shock: an annual rate of -20%, [-20 / 100]. *)
Definition shock_rate : num := quot (of_int (-20)) (of_int 100).

(** [1 - tax_rate] is not zero: the gross-up division does not raise. *)
Definition taxable (self : RetirementPlanner) : Prop :=
  is_zero (sub (of_int 1) (tax_rate (self_inputs self))) = false.

(** The gross withdrawal the loop computes in month [m]. *)
Definition withdrawal_in_month (self : RetirementPlanner) (crash_rate : num)
    (crash_years : Z) (m : Z) : result num :=
  (st <- run_months self crash_rate crash_years (m - 1) ;;
   let '(cd, ce) := escalate self m (current_div st) (current_expense st) in
   gross_withdrawal_of self cd ce)%result.

(** The planner keeps its inputs and horizon; only [lump_sum] may differ. *)
Definition same_frame (s self : RetirementPlanner) : Prop :=
  self_inputs s = self_inputs self /\
  self_horizon_months s = self_horizon_months self.

End Engine.

Arguments Inputs num : clear implicits.
Arguments RetirementPlanner num : clear implicits.
Arguments Row num : clear implicits.
Arguments Locals num : clear implicits.

(** ** Scenarios *)

Section Scenarios.

Context {num : Type} {arith : Arith num}.

(** The default scenario of the form: capital 500000, fixed income 1500,
    dividends 500, target spend 4000, tax 15%, 25 years, inflation 2.5%,
    dividend growth 3%, expected return 7%. *)
Definition golden : Inputs num :=
  {| lump_sum := of_int 500000;
     other_income := of_int 1500;
     current_dividends := of_int 500;
     target_payout := of_int 4000;
     tax_rate := quot (of_int 15) (of_int 100);
     horizon_years := 25;
     inflation_rate := quot (of_int 25) (of_int 1000);
     gdp_growth := quot (of_int 3) (of_int 100);
     expected_return := quot (of_int 7) (of_int 100) |}.

(** A scenario without income, tax, inflation or dividend growth. *)
Definition plain (capital spend : Z) (years : Z) (annual_return : num)
  : Inputs num :=
  {| lump_sum := of_int capital;
     other_income := of_int 0;
     current_dividends := of_int 0;
     target_payout := of_int spend;
     tax_rate := of_int 0;
     horizon_years := years;
     inflation_rate := of_int 0;
     gdp_growth := of_int 0;
     expected_return := annual_return |}.

(** Capital 100 against a spend of 100 a month, over 10 years: gone in the
    first month. *)
Definition spent_at_once : Inputs num := plain 100 100 10 (of_int 0).

(** Ten years at a return of -2400% a year, with a spend of 50 a month. *)
Definition collapse (capital : Z) : Inputs num :=
  plain capital 50 10 (of_int (-24)).

(** Ten years of spending 1000 a month out of a capital of 1. *)
Definition out_of_reach : Inputs num := plain 1 1000 10 (of_int 0).

(** Nothing to fund: a capital of 1000 and no spending. *)
Definition covered : Inputs num := plain 1000 0 10 (of_int 0).

(** A market falling by 24% a year, nothing withdrawn. *)
Definition falling_market : Inputs num :=
  plain 1000 0 10 (quot (of_int (-24)) (of_int 100)).

(** A tax rate of 200%. *)
Definition overtaxed : Inputs num :=
  {| lump_sum := of_int 1000;
     other_income := of_int 0;
     current_dividends := of_int 0;
     target_payout := of_int 100;
     tax_rate := of_int 2;
     horizon_years := 10;
     inflation_rate := of_int 0;
     gdp_growth := of_int 0;
     expected_return := of_int 0 |}.

(** Capital 1000 against a spend of 50 a month for ten years: 6000 are
    needed, and ten times the capital is enough. *)
Definition within_reach : Inputs num := plain 1000 50 10 (of_int 0).

(** The default scenario with another horizon and other market
    assumptions. *)
Definition golden_variant : Inputs num :=
  {| lump_sum := of_int 500000;
     other_income := of_int 1500;
     current_dividends := of_int 500;
     target_payout := of_int 4000;
     tax_rate := quot (of_int 15) (of_int 100);
     horizon_years := 40;
     inflation_rate := quot (of_int 5) (of_int 100);
     gdp_growth := of_int 0;
     expected_return := quot (of_int (-3)) (of_int 100) |}.

End Scenarios.

(** ** The script around the planner *)

Section Script.

Context {num : Type} {arith : Arith num}.

(** The expected return the "Portfolio Architect" proposes: fixed for the
    two presets, and for any other strategy the mix of the four weights
    [e] (equity), [m] (metals), [d] (debt) and [c] (cash), each an int of
    the form, at 9%, 4%, 4% and 2%. *)
Definition est_return (strategy : string) (e m d c : Z) : num :=
  if String.eqb strategy "Aggressive Growth"
  then quot (of_int 8) (of_int 100)
  else if String.eqb strategy "Conservative Income"
  then quot (of_int 5) (of_int 100)
  else
    quot (add (add (add (mul (of_int e) (quot (of_int 9) (of_int 100)))
                        (mul (of_int m) (quot (of_int 4) (of_int 100))))
                   (mul (of_int d) (quot (of_int 4) (of_int 100))))
              (mul (of_int c) (quot (of_int 2) (of_int 100))))
         (of_int 100).

(** What stops the script: an exception of the planner, or the
    [IndexError] of [df_base.iloc[-1]] on an empty data frame. *)
Inductive script_exn : Type :=
| Planner_error (e : exn)
| IndexError.

(** The third metric of the dashboard, before formatting: the required
    capital with the amount still needed, or the ending balance. *)
Inductive Metric : Type :=
| Required_Capital (req needed : num)
| Ending_Balance (b : num).

(** "RUN SIMULATION" and "DASHBOARD RESULTS": the withdrawal rate and its
    tier, the status of the base scenario, and the third metric. *)
Definition dashboard (inputs : Inputs num)
  : script_exn + (num * string * string * Metric) :=
  let planner := init inputs in
  match calculate_viability planner (of_int 0) 0 with
  | Raise e => inl (Planner_error e)
  | Ok (df_base, solv_base, msg_base) =>
      match calculate_swr_health planner with
      | Raise e => inl (Planner_error e)
      | Ok (swr, swr_status) =>
          if negb solv_base then
            match fst (solve_required_capital (of_int 0) 0 planner) with
            | Raise e => inl (Planner_error e)
            | Ok req =>
                inr (swr, swr_status, msg_base,
                     Required_Capital req (sub req (lump_sum inputs)))
            end
          else
            match final_balance df_base with
            | None => inl IndexError
            | Some b => inr (swr, swr_status, msg_base, Ending_Balance b)
            end
      end
  end.

(** The default scenario taxed at 100%. *)
Definition fully_taxed : Inputs num :=
  {| lump_sum := of_int 500000;
     other_income := of_int 1500;
     current_dividends := of_int 500;
     target_payout := of_int 4000;
     tax_rate := of_int 1;
     horizon_years := 25;
     inflation_rate := quot (of_int 25) (of_int 1000);
     gdp_growth := quot (of_int 3) (of_int 100);
     expected_return := quot (of_int 7) (of_int 100) |}.

(** The default scenario taxed at 100%, with a horizon of no year. *)
Definition no_horizon : Inputs num :=
  {| lump_sum := of_int 500000;
     other_income := of_int 1500;
     current_dividends := of_int 500;
     target_payout := of_int 4000;
     tax_rate := of_int 1;
     horizon_years := 0;
     inflation_rate := quot (of_int 25) (of_int 1000);
     gdp_growth := quot (of_int 3) (of_int 100);
     expected_return := quot (of_int 7) (of_int 100) |}.

(** The inputs with another starting capital, all else equal. *)
Definition set_capital (inputs : Inputs num) (c : num) : Inputs num :=
  {| lump_sum := c;
     other_income := other_income inputs;
     current_dividends := current_dividends inputs;
     target_payout := target_payout inputs;
     tax_rate := tax_rate inputs;
     horizon_years := horizon_years inputs;
     inflation_rate := inflation_rate inputs;
     gdp_growth := gdp_growth inputs;
     expected_return := expected_return inputs |}.

(** The yearly escalation, [n] times: [x *= (1 + rate)]. *)
Definition escalated (rate : num) (n : nat) (x : num) : num :=
  Nat.iter n (fun v => mul v (add (of_int 1) rate)) x.

End Script.

(** * Properties of the control flow, for every arithmetic *)

Lemma bind_ok_inv {A B : Type} (c : result A) (k : A -> result B) (b : B) :
  bind c k = Ok b -> exists a, c = Ok a /\ k a = Ok b.
Proof.
  destruct c as [a|e]; simpl; intros H; [exists a; auto | discriminate].
Qed.

Lemma Ok_inj {A : Type} (a b : A) : Ok a = Ok b -> a = b.
Proof. intros H. congruence. Qed.

Lemma for_each_app {S : Type} (body : Z -> S -> result S) (xs ys : list Z)
    (s : S) :
  for_each body (xs ++ ys) s = bind (for_each body xs s) (for_each body ys).
Proof.
  revert s; induction xs as [|x xs IH]; intros s; simpl; [reflexivity|].
  destruct (body x s) as [s'|e]; simpl; [apply IH | reflexivity].
Qed.

(** An invariant of the loop body is an invariant of the loop. *)
Lemma for_each_inv {S : Type} (P : S -> Prop) (body : Z -> S -> result S)
    (ms : list Z) :
  (forall m s s', In m ms -> P s -> body m s = Ok s' -> P s') ->
  forall s s', P s -> for_each body ms s = Ok s' -> P s'.
Proof.
  induction ms as [|m ms IH]; intros Hstep s s' Hs Hrun; simpl in Hrun.
  - injection Hrun as <-. exact Hs.
  - apply bind_ok_inv in Hrun as (s1 & H1 & H2).
    apply (IH (fun m0 a b Hin => Hstep m0 a b (or_intror Hin)) s1 s'); auto.
    apply (Hstep m s s1); simpl; auto.
Qed.

(** A relation between the locals of two runs that each pair of bodies
    preserves is preserved by the two loops. *)
Lemma for_each_rel {S : Type} (R : S -> S -> Prop)
    (f g : Z -> S -> result S) (ms : list Z) :
  (forall m a b a' b', In m ms -> R a b -> f m a = Ok a' -> g m b = Ok b' ->
                       R a' b') ->
  forall a b a' b', R a b -> for_each f ms a = Ok a' ->
                    for_each g ms b = Ok b' -> R a' b'.
Proof.
  induction ms as [|m ms IH]; intros Hstep a b a' b' Hab Ha Hb;
    simpl in Ha, Hb.
  - injection Ha as <-. injection Hb as <-. exact Hab.
  - apply bind_ok_inv in Ha as (a1 & Ha1 & Ha2).
    apply bind_ok_inv in Hb as (b1 & Hb1 & Hb2).
    apply (IH (fun m0 x y x' y' Hin => Hstep m0 x y x' y' (or_intror Hin))
              a1 b1 a' b'); auto.
    apply (Hstep m a b a1 b1); simpl; auto.
Qed.

Lemma range_nil (lo : Z) : range lo lo = [].
Proof. unfold range. rewrite Z.sub_diag. reflexivity. Qed.

Lemma range_snoc (lo hi : Z) :
  lo <= hi -> range lo (hi + 1) = range lo hi ++ [hi].
Proof.
  intros Hle. unfold range.
  replace (Z.to_nat (hi + 1 - lo)) with (S (Z.to_nat (hi - lo))) by lia.
  rewrite seq_S, map_app. simpl. do 2 f_equal. lia.
Qed.

Lemma range_app (lo mid hi : Z) :
  lo <= mid <= hi -> range lo hi = range lo mid ++ range mid hi.
Proof.
  intros [H1 H2].
  replace hi with (mid + Z.of_nat (Z.to_nat (hi - mid))) by lia.
  induction (Z.to_nat (hi - mid)) as [|n IH].
  - rewrite Z.add_0_r, range_nil, app_nil_r. reflexivity.
  - replace (mid + Z.of_nat (S n)) with (mid + Z.of_nat n + 1) by lia.
    rewrite !range_snoc by lia. rewrite IH, app_assoc. reflexivity.
Qed.

Lemma in_range (lo hi m : Z) : In m (range lo hi) <-> lo <= m < hi.
Proof.
  unfold range. rewrite in_map_iff. split.
  - intros (i & <- & Hi). apply in_seq in Hi. lia.
  - intros H. exists (Z.to_nat (m - lo)). split; [lia|].
    apply in_seq. lia.
Qed.

Lemma for_each_total {S : Type} (body : Z -> S -> result S) (ms : list Z) :
  (forall m s, exists s', body m s = Ok s') ->
  forall s, exists s', for_each body ms s = Ok s'.
Proof.
  intros Hbody. induction ms as [|m ms IH]; intros s; simpl.
  - exists s; reflexivity.
  - destruct (Hbody m s) as (s1 & ->). simpl. apply IH.
Qed.

Lemma year_of_boundary (j : Z) : year_of (12 * j) = j.
Proof. unfold year_of. Z.div_mod_to_equations. lia. Qed.

Lemma find_year_app {num : Type} (y : Z) (pre ext : list (Row num))
    (r : Row num) :
  Forall (fun r0 => Year r0 < y) pre -> Year r = y ->
  balance_at_year y ((pre ++ [r]) ++ ext) = Some (Balance r).
Proof.
  intros Hpre Hr. unfold balance_at_year. rewrite <- app_assoc. simpl.
  induction Hpre as [|r0 pre H0 _ IH]; simpl.
  - rewrite Hr, Z.eqb_refl. reflexivity.
  - replace (Year r0 =? y) with false by (symmetry; apply Z.eqb_neq; lia).
    exact IH.
Qed.

Section Simulator.

Context {num : Type} {arith : Arith num}.
Variable self : RetirementPlanner num.
Variable crash_rate : num.
Variable crash_years : Z.

Local Abbreviation body := (month self crash_rate crash_years).

(** What one month does to the locals, when it does not raise. *)
Lemma month_inv (m : Z) (st st' : Locals num) :
  month self crash_rate crash_years m st = Ok st' ->
  let esc := escalate self m (current_div st) (current_expense st) in
  let rate := monthly_rate_of self crash_rate crash_years (year_of m) in
  exists w,
    gross_withdrawal_of self (fst esc) (snd esc) = Ok w /\
    let bal := sub (add (balance st) (mul (balance st) rate)) w in
    let hit := le bal (of_int 0) && is_solvent st in
    balance st' = (if hit then of_int 0 else bal) /\
    is_solvent st' = (if hit then false else is_solvent st) /\
    insolvency_msg st' =
      (if hit then depleted_msg (year_of m) else insolvency_msg st) /\
    current_div st' = fst esc /\
    current_expense st' = snd esc /\
    data st' =
      (if (m mod 12 =? 0) || (m =? self_horizon_months self)
       then data st ++ [{| Year := year_of m; Expenses_Net := snd esc;
                           Withdrawal_Gross := w; Balance := balance st' |}]
       else data st).
Proof.
  intros H. cbv zeta. unfold month in H.
  destruct (escalate self m (current_div st) (current_expense st))
    as [cd ce].
  apply bind_ok_inv in H as (w & Hw & Hst). exists w. split; [exact Hw|].
  injection Hst as <-. simpl. repeat split; reflexivity.
Qed.

Lemma gross_withdrawal_ok (cd ce : num) :
  taxable self -> exists w, gross_withdrawal_of self cd ce = Ok w.
Proof.
  unfold taxable, gross_withdrawal_of, div. intros ->. eauto.
Qed.

Lemma gross_withdrawal_raise (cd ce : num) :
  is_zero (sub (of_int 1) (tax_rate (self_inputs self))) = true ->
  gross_withdrawal_of self cd ce = Raise ZeroDivisionError.
Proof.
  unfold gross_withdrawal_of, div. intros ->. reflexivity.
Qed.

Lemma month_ok (m : Z) (st : Locals num) :
  taxable self -> exists st', month self crash_rate crash_years m st = Ok st'.
Proof.
  intros Ht. unfold month.
  destruct (escalate self m (current_div st) (current_expense st)) as [cd ce].
  destruct (gross_withdrawal_ok cd ce Ht) as (w & ->). simpl. eauto.
Qed.

Lemma month_raise (m : Z) (st : Locals num) :
  is_zero (sub (of_int 1) (tax_rate (self_inputs self))) = true ->
  month self crash_rate crash_years m st = Raise ZeroDivisionError.
Proof.
  intros Hz. unfold month.
  destruct (escalate self m (current_div st) (current_expense st)) as [cd ce].
  rewrite (gross_withdrawal_raise cd ce Hz). reflexivity.
Qed.

(** The loop runs to its end whenever [1 - tax_rate] is not zero. *)
Lemma run_months_ok (k : Z) :
  taxable self -> exists st, run_months self crash_rate crash_years k = Ok st.
Proof.
  intros Ht. unfold run_months. apply for_each_total.
  intros m s. apply month_ok, Ht.
Qed.

Lemma run_months_raise (k : Z) :
  is_zero (sub (of_int 1) (tax_rate (self_inputs self))) = true ->
  1 <= k ->
  run_months self crash_rate crash_years k = Raise ZeroDivisionError.
Proof.
  intros Hz Hk. unfold run_months.
  rewrite (range_app 1 2 (k + 1)) by lia.
  change (range 1 2) with [1]. simpl.
  rewrite month_raise by exact Hz. reflexivity.
Qed.

(** The months [1 .. k'] are the months [1 .. k] followed by the rest. *)
Lemma run_months_split (k k' : Z) :
  0 <= k <= k' ->
  run_months self crash_rate crash_years k' =
  bind (run_months self crash_rate crash_years k)
       (for_each body (range (k + 1) (k' + 1))).
Proof.
  intros Hk. unfold run_months.
  rewrite (range_app 1 (k + 1) (k' + 1)) by lia.
  apply for_each_app.
Qed.

Lemma calculate_viability_ok :
  taxable self ->
  exists st,
    run_months self crash_rate crash_years (self_horizon_months self) = Ok st /\
    calculate_viability self crash_rate crash_years
    = Ok (data st, is_solvent st, insolvency_msg st).
Proof.
  intros Ht. destruct (run_months_ok (self_horizon_months self) Ht) as (st & H).
  exists st. split; [exact H|]. unfold calculate_viability. rewrite H.
  reflexivity.
Qed.

Lemma calculate_viability_inv rows solvent msg :
  calculate_viability self crash_rate crash_years = Ok (rows, solvent, msg) ->
  exists st,
    run_months self crash_rate crash_years (self_horizon_months self) = Ok st /\
    rows = data st /\ solvent = is_solvent st /\ msg = insolvency_msg st.
Proof.
  unfold calculate_viability. intros H.
  apply bind_ok_inv in H as (st & Hst & Heq). exists st.
  injection Heq as <- <- <-. auto.
Qed.

Lemma calculate_viability_raise :
  is_zero (sub (of_int 1) (tax_rate (self_inputs self))) = true ->
  1 <= self_horizon_months self ->
  calculate_viability self crash_rate crash_years = Raise ZeroDivisionError.
Proof.
  intros Hz Hk. unfold calculate_viability.
  rewrite run_months_raise by assumption. reflexivity.
Qed.

(** *** The solvency flag and the status message *)

Lemma month_insolvent (m : Z) (st st' : Locals num) :
  month self crash_rate crash_years m st = Ok st' ->
  is_solvent st = false ->
  is_solvent st' = false /\ insolvency_msg st' = insolvency_msg st.
Proof.
  intros H Hs. apply month_inv in H as (w & _ & _ & Hsol & Hmsg & _).
  rewrite Hs, andb_false_r in Hsol, Hmsg. auto.
Qed.

(** After the depletion the balance is no longer clamped: it grows at the
    monthly rate and the withdrawal is taken from it, whatever its sign. *)
Lemma month_after_depletion (m : Z) (st st' : Locals num) :
  month self crash_rate crash_years m st = Ok st' ->
  is_solvent st = false ->
  exists w,
    gross_withdrawal_of self
      (fst (escalate self m (current_div st) (current_expense st)))
      (snd (escalate self m (current_div st) (current_expense st))) = Ok w /\
    balance st'
    = sub (add (balance st)
               (mul (balance st)
                    (monthly_rate_of self crash_rate crash_years (year_of m))))
          w.
Proof.
  intros H Hs. apply month_inv in H as (w & Hw & Hb & _).
  rewrite Hs, andb_false_r in Hb. eauto.
Qed.

(** Once the flag is false it stays false and the message is kept. *)
Lemma insolvent_forever (k k' : Z) (st st' : Locals num) :
  0 <= k <= k' ->
  run_months self crash_rate crash_years k = Ok st ->
  run_months self crash_rate crash_years k' = Ok st' ->
  is_solvent st = false ->
  is_solvent st' = false /\ insolvency_msg st' = insolvency_msg st.
Proof.
  intros Hk Hst Hst' Hs.
  rewrite (run_months_split k k' Hk), Hst in Hst'. simpl in Hst'.
  apply (for_each_inv
           (fun s => is_solvent s = false /\
                     insolvency_msg s = insolvency_msg st)
           body (range (k + 1) (k' + 1))) with (s := st); auto.
  intros m s s' _ [Hsol Hmsg] Hm.
  destruct (month_insolvent m s s' Hm Hsol) as [H1 H2].
  split; [exact H1 | congruence].
Qed.

(** The message is "Solvent" exactly as long as the flag is true, and
    names the year of a month of the run otherwise. *)
Lemma status_message (k : Z) (st : Locals num) :
  run_months self crash_rate crash_years k = Ok st ->
  if is_solvent st then insolvency_msg st = "Solvent"%string
  else exists m, 1 <= m <= k /\ insolvency_msg st = depleted_msg (year_of m).
Proof.
  unfold run_months. intros H.
  apply (for_each_inv
    (fun s => if is_solvent s then insolvency_msg s = "Solvent"%string
              else exists m, 1 <= m <= k /\
                             insolvency_msg s = depleted_msg (year_of m))
    body (range 1 (k + 1))) with (s := start self);
    [ | reflexivity | exact H ].
  intros m a a' Hm Ha Hstep. apply in_range in Hm.
  apply month_inv in Hstep as (w & _ & _ & Hsol & Hmsg & _).
  rewrite Hsol, Hmsg.
  destruct (is_solvent a); [|rewrite andb_false_r; exact Ha].
  rewrite andb_true_r.
  destruct (le _ _); [|exact Ha].
  exists m. split; [lia | reflexivity].
Qed.

(** *** The sampled rows *)

Lemma month_data_grows (m : Z) (st st' : Locals num) :
  month self crash_rate crash_years m st = Ok st' ->
  exists ext, data st' = data st ++ ext.
Proof.
  intros H. apply month_inv in H as (w & _ & _ & _ & _ & _ & _ & Hd).
  rewrite Hd. destruct (_ || _); [eauto|].
  exists []. rewrite app_nil_r. reflexivity.
Qed.

Lemma for_each_data_grows (ms : list Z) (st st' : Locals num) :
  for_each body ms st = Ok st' -> exists ext, data st' = data st ++ ext.
Proof.
  intros H.
  apply (for_each_inv (fun s => exists ext, data s = data st ++ ext)
                      body ms) with (s := st); [ | | exact H].
  - intros m a a' _ (e1 & He1) Hm.
    destruct (month_data_grows m a a' Hm) as (e2 & He2).
    exists (e1 ++ e2). rewrite He2, He1, app_assoc. reflexivity.
  - exists []. rewrite app_nil_r. reflexivity.
Qed.

(** Before the end of year [y] every sampled row is of an earlier year. *)
Lemma rows_before_year (y k : Z) (st : Locals num) :
  12 * y <= self_horizon_months self ->
  k < 12 * y ->
  run_months self crash_rate crash_years k = Ok st ->
  Forall (fun r => Year r < y) (data st).
Proof.
  intros HH Hk Hrun. unfold run_months in Hrun.
  apply (for_each_inv (fun s => Forall (fun r => Year r < y) (data s))
                      body (range 1 (k + 1))) with (s := start self);
    [ | constructor | exact Hrun ].
  intros m a a' Hm Ha Hstep. apply in_range in Hm.
  apply month_inv in Hstep as (w & _ & _ & _ & _ & _ & _ & Hd).
  rewrite Hd.
  destruct ((m mod 12 =? 0) || (m =? self_horizon_months self)) eqn:E;
    [|exact Ha].
  apply Forall_app. split; [exact Ha|]. constructor; [|constructor].
  simpl. apply orb_true_iff in E as [E|E].
  - apply Z.eqb_eq in E. unfold year_of. Z.div_mod_to_equations. lia.
  - apply Z.eqb_eq in E. lia.
Qed.

(** The last month of year [y] appends the row of year [y], holding the
    balance at the end of that month. *)
Lemma row_of_year (y : Z) (st : Locals num) :
  1 <= y ->
  12 * y <= self_horizon_months self ->
  run_months self crash_rate crash_years (12 * y) = Ok st ->
  exists pre r,
    data st = pre ++ [r] /\ Forall (fun r0 => Year r0 < y) pre /\
    Year r = y /\ Balance r = balance st.
Proof.
  intros Hy HH Hrun.
  rewrite (run_months_split (12 * y - 1) (12 * y)) in Hrun by lia.
  apply bind_ok_inv in Hrun as (st0 & Hst0 & Hlast).
  replace (12 * y - 1 + 1) with (12 * y) in Hlast by lia.
  rewrite range_snoc, range_nil in Hlast by lia.
  cbn [for_each app] in Hlast.
  apply bind_ok_inv in Hlast as (st1 & Hm & Heq). injection Heq as <-.
  apply month_inv in Hm as (w & _ & _ & _ & _ & _ & _ & Hd).
  replace ((12 * y) mod 12 =? 0) with true in Hd
    by (symmetry; apply Z.eqb_eq; Z.div_mod_to_equations; lia).
  cbn [orb] in Hd. eexists _, _. split; [exact Hd|].
  split; [apply (rows_before_year y (12 * y - 1)); auto; lia|].
  cbn [Year Balance]. split; [apply year_of_boundary | reflexivity].
Qed.

(** The balance the data frame shows for year [y] is the balance at the end
    of month [12 * y]. *)
Lemma balance_at_year_sample (y : Z) (st : Locals num) rows solvent msg :
  1 <= y ->
  12 * y <= self_horizon_months self ->
  run_months self crash_rate crash_years (12 * y) = Ok st ->
  calculate_viability self crash_rate crash_years = Ok (rows, solvent, msg) ->
  balance_at_year y rows = Some (balance st).
Proof.
  intros Hy HH Hrun Hcv.
  apply calculate_viability_inv in Hcv as (stH & HrunH & -> & _ & _).
  rewrite (run_months_split (12 * y) (self_horizon_months self)), Hrun
    in HrunH by lia.
  simpl in HrunH. apply for_each_data_grows in HrunH as (ext & ->).
  destruct (row_of_year y st Hy HH Hrun) as (pre & r & -> & Hpre & Hyr & <-).
  apply find_year_app; assumption.
Qed.

(** The last row holds the balance at the end of the horizon. *)
Lemma final_balance_last (st : Locals num) :
  1 <= self_horizon_months self ->
  run_months self crash_rate crash_years (self_horizon_months self) = Ok st ->
  final_balance (data st) = Some (balance st).
Proof.
  intros HH Hrun.
  rewrite (run_months_split (self_horizon_months self - 1)
             (self_horizon_months self)) in Hrun by lia.
  apply bind_ok_inv in Hrun as (st0 & _ & Hlast).
  replace (self_horizon_months self - 1 + 1) with (self_horizon_months self)
    in Hlast by lia.
  rewrite range_snoc, range_nil in Hlast by lia.
  cbn [for_each app] in Hlast.
  apply bind_ok_inv in Hlast as (st1 & Hm & Heq). apply Ok_inj in Heq.
  subst st1.
  apply month_inv in Hm as (w & _ & _ & _ & _ & _ & _ & Hd).
  rewrite Z.eqb_refl, orb_true_r in Hd.
  unfold final_balance. rewrite Hd, map_app. cbn [map].
  rewrite last_last. reflexivity.
Qed.

(** *** The rows of a horizon of whole years *)

(** Months that are neither a year's end nor the last one add no row. *)
Lemma months_without_sample (k0 k : Z) (st0 st : Locals num) :
  0 <= k0 <= k ->
  (forall m, k0 < m <= k -> m mod 12 <> 0 /\ m <> self_horizon_months self) ->
  run_months self crash_rate crash_years k0 = Ok st0 ->
  run_months self crash_rate crash_years k = Ok st ->
  data st = data st0.
Proof.
  intros Hk Hno H0 Hrun.
  rewrite (run_months_split k0 k Hk), H0 in Hrun. cbn [bind] in Hrun.
  apply (for_each_inv (fun s => data s = data st0) body
                      (range (k0 + 1) (k + 1))) with (s := st0);
    [ | reflexivity | exact Hrun ].
  intros m a a' Hm Ha Hstep. apply in_range in Hm.
  apply month_inv in Hstep as (w & _ & _ & _ & _ & _ & _ & Hd).
  destruct (Hno m) as [H1 H2]; [lia|].
  apply Z.eqb_neq in H1, H2. rewrite H1, H2 in Hd. cbn [orb] in Hd.
  congruence.
Qed.

(** The twelve months of year [j + 1] add exactly its row. *)
Lemma year_end_row (j : Z) (st0 st : Locals num) :
  0 <= j ->
  self_horizon_months self mod 12 = 0 ->
  12 * (j + 1) <= self_horizon_months self ->
  run_months self crash_rate crash_years (12 * j) = Ok st0 ->
  run_months self crash_rate crash_years (12 * (j + 1)) = Ok st ->
  exists r, data st = data st0 ++ [r] /\ Year r = j + 1 /\
            Balance r = balance st.
Proof.
  intros Hj Hmod HH H0 Hrun.
  rewrite (run_months_split (12 * (j + 1) - 1) (12 * (j + 1))) in Hrun
    by lia.
  apply bind_ok_inv in Hrun as (st1 & Hst1 & Hlast).
  replace (12 * (j + 1) - 1 + 1) with (12 * (j + 1)) in Hlast by lia.
  rewrite range_snoc, range_nil in Hlast by lia.
  cbn [for_each app] in Hlast.
  apply bind_ok_inv in Hlast as (st2 & Hm & Heq). apply Ok_inj in Heq.
  subst st2.
  assert (Hd1 : data st1 = data st0).
  { apply (months_without_sample (12 * j) (12 * (j + 1) - 1)); auto;
      [lia|].
    intros m Hm'. split; [|intros ->]; Z.div_mod_to_equations; lia. }
  apply month_inv in Hm as (w & _ & _ & _ & _ & _ & _ & Hd).
  replace ((12 * (j + 1)) mod 12 =? 0) with true in Hd
    by (symmetry; apply Z.eqb_eq; Z.div_mod_to_equations; lia).
  cbn [orb] in Hd. rewrite Hd1 in Hd. eexists. split; [exact Hd|].
  cbn [Year Balance]. split; [apply year_of_boundary | reflexivity].
Qed.

(** After [j] whole years the rows are those of the years [1 .. j]. *)
Lemma sampled_years (j : Z) :
  0 <= j ->
  self_horizon_months self mod 12 = 0 ->
  12 * j <= self_horizon_months self ->
  forall st, run_months self crash_rate crash_years (12 * j) = Ok st ->
             map Year (data st) = range 1 (j + 1).
Proof.
  intros Hj Hmod. pattern j. apply natlike_ind; [ | | exact Hj]; clear j Hj.
  - intros _ st Hrun. unfold run_months in Hrun.
    change (range 1 (12 * 0 + 1)) with (@nil Z) in Hrun.
    cbn [for_each] in Hrun. apply Ok_inj in Hrun. subst st. reflexivity.
  - intros j Hj IH HH st Hrun.
    replace (Z.succ j) with (j + 1) in * by lia.
    pose proof Hrun as Hsplit.
    rewrite (run_months_split (12 * j) (12 * (j + 1))) in Hsplit by lia.
    apply bind_ok_inv in Hsplit as (st0 & Hst0 & _).
    destruct (year_end_row j st0 st Hj Hmod HH Hst0 Hrun)
      as (r & Hd & Hy & _).
    rewrite Hd, map_app, (IH ltac:(lia) st0 Hst0). cbn [map].
    rewrite Hy. symmetry. apply range_snoc. lia.
Qed.

(** The data frame extends the rows sampled by any month of the run. *)
Lemma rows_extend_prefix (k : Z) (st : Locals num) rows solvent msg :
  0 <= k <= self_horizon_months self ->
  run_months self crash_rate crash_years k = Ok st ->
  calculate_viability self crash_rate crash_years = Ok (rows, solvent, msg) ->
  exists ext, rows = data st ++ ext.
Proof.
  intros Hk Hrun Hcv.
  apply calculate_viability_inv in Hcv as (stH & HrunH & -> & _ & _).
  rewrite (run_months_split k (self_horizon_months self) Hk), Hrun in HrunH.
  cbn [bind] in HrunH. apply (for_each_data_grows _ _ _ HrunH).
Qed.

(** Over a horizon of [h] whole years the data frame has one row a year,
    for the years [1 .. h] in order. *)
Lemma trajectory_years (h : Z) rows solvent msg :
  0 <= h ->
  self_horizon_months self = 12 * h ->
  calculate_viability self crash_rate crash_years = Ok (rows, solvent, msg) ->
  map Year rows = range 1 (h + 1) /\ List.length rows = Z.to_nat h.
Proof.
  intros Hh HH Hcv.
  apply calculate_viability_inv in Hcv as (st & Hrun & -> & _ & _).
  rewrite HH in Hrun.
  assert (Hy : map Year (data st) = range 1 (h + 1)).
  { apply (sampled_years h Hh); [rewrite HH | rewrite HH | exact Hrun].
    - Z.div_mod_to_equations. lia.
    - lia. }
  split; [exact Hy|].
  rewrite <- (length_map Year), Hy. unfold range.
  rewrite length_map, length_seq. f_equal. lia.
Qed.

End Simulator.

(** * The capital solver, for every arithmetic *)

Section Solver.

Context {num : Type} {arith : Arith num}.
Variable self : RetirementPlanner num.
Variable crash_rate : num.
Variable crash_years : Z.

Local Abbreviation oracle := (solvent_at self crash_rate crash_years).

Lemma same_frame_refl : same_frame self self.
Proof. split; reflexivity. Qed.

Lemma same_frame_with_lump_sum (s : RetirementPlanner num) (v : num) :
  same_frame s self -> same_frame (with_lump_sum s v) self.
Proof. intros [H1 H2]. split; simpl; assumption. Qed.

Lemma with_lump_sum_frame (s : RetirementPlanner num) (v : num) :
  same_frame s self -> with_lump_sum s v = with_lump_sum self v.
Proof. intros [H1 H2]. unfold with_lump_sum. rewrite H1, H2. reflexivity. Qed.

Lemma with_lump_sum_self : with_lump_sum self (self_lump_sum self) = self.
Proof. destruct self; reflexivity. Qed.

(** One iteration leaves the inputs and the horizon of the planner alone,
    whether it raises or not. *)
Lemma bisect_frame (lh : num * num) (s s' : RetirementPlanner num) r :
  bisect crash_rate crash_years lh s = (r, s') ->
  same_frame s self -> same_frame s' self.
Proof.
  destruct lh as [low high]. unfold bisect, mbind, set_lump_sum, call, ret.
  intros H Hs.
  destruct (calculate_viability _ crash_rate crash_years)
    as [[[rows solvent] msg]|e];
    injection H as _ <-; apply same_frame_with_lump_sum, Hs.
Qed.

Lemma repeat_bisect_frame (n : nat) (lh : num * num)
    (s s' : RetirementPlanner num) r :
  repeat_body n (bisect crash_rate crash_years) lh s = (r, s') ->
  same_frame s self -> same_frame s' self.
Proof.
  revert lh s. induction n as [|n IH]; intros lh s H Hs;
    cbn [repeat_body] in H.
  - injection H as _ <-. exact Hs.
  - unfold mbind in H.
    destruct (bisect crash_rate crash_years lh s) as [[lh1|e] s1] eqn:E.
    + apply (IH lh1 s1 H). apply (bisect_frame lh s s1 _ E Hs).
    + injection H as _ <-. apply (bisect_frame lh s s1 _ E Hs).
Qed.

(** When the simulator cannot raise, an iteration is a step of
    [bisection] against the simulator's verdict. *)
Lemma bisect_step (low high : num) (s : RetirementPlanner num) :
  taxable self -> same_frame s self ->
  exists s',
    bisect crash_rate crash_years (low, high) s
    = (Ok (let mid := quot (add low high) (of_int 2) in
           if oracle mid then (low, mid) else (mid, high)), s')
    /\ same_frame s' self.
Proof.
  intros Ht Hs. unfold bisect, mbind, set_lump_sum, call, ret.
  rewrite (with_lump_sum_frame s _ Hs).
  set (mid := quot (add low high) (of_int 2)).
  assert (Ht' : taxable (with_lump_sum self mid)) by exact Ht.
  destruct (calculate_viability_ok (with_lump_sum self mid) crash_rate
              crash_years Ht') as (st & _ & Hcv).
  unfold solvent_at. rewrite Hcv.
  eexists. split; [reflexivity|].
  apply same_frame_with_lump_sum, same_frame_refl.
Qed.

Lemma repeat_bisect (n : nat) (low high : num) (s : RetirementPlanner num) :
  taxable self -> same_frame s self ->
  exists s',
    repeat_body n (bisect crash_rate crash_years) (low, high) s
    = (Ok (bisection oracle n low high), s')
    /\ same_frame s' self.
Proof.
  intros Ht. revert low high s.
  induction n as [|n IH]; intros low high s Hs;
    cbn [repeat_body bisection].
  - exists s. split; [reflexivity | exact Hs].
  - unfold mbind at 1.
    destruct (bisect_step low high s Ht Hs) as (s1 & -> & Hs1).
    cbv zeta. destruct (oracle _); apply IH, Hs1.
Qed.

(** The solver returns the upper end of the bracket after 30 halvings and
    puts the planner's capital back. *)
Lemma solve_required_capital_spec :
  taxable self ->
  solve_required_capital crash_rate crash_years self
  = (Ok (snd (bisection oracle 30 (self_lump_sum self)
                (mul (self_lump_sum self) (of_int 10)))), self).
Proof.
  intros Ht. unfold solve_required_capital, get_self. unfold mbind at 1.
  unfold mbind at 1.
  destruct (repeat_bisect 30 (self_lump_sum self)
              (mul (self_lump_sum self) (of_int 10)) self Ht same_frame_refl)
    as (s' & -> & Hs').
  unfold mbind, set_lump_sum, ret.
  rewrite (with_lump_sum_frame s' _ Hs'), with_lump_sum_self. reflexivity.
Qed.

(** Whatever the arithmetic, a call that returns leaves the planner as it
    found it. *)
Lemma solve_required_capital_frame (required : num)
    (self' : RetirementPlanner num) :
  solve_required_capital crash_rate crash_years self = (Ok required, self') ->
  self' = self.
Proof.
  unfold solve_required_capital, get_self. unfold mbind at 1.
  unfold mbind at 1.
  destruct (repeat_body 30 _ _ self) as [[lh|e] s'] eqn:E; [|discriminate].
  unfold mbind, set_lump_sum, ret. intros H. injection H as _ <-.
  rewrite (with_lump_sum_frame s' _
             (repeat_bisect_frame 30 _ self s' _ E same_frame_refl)).
  apply with_lump_sum_self.
Qed.

(** With [1 - tax_rate = 0] the first simulation raises, and the planner
    is left holding the first midpoint. *)
Lemma solve_required_capital_raise :
  is_zero (sub (of_int 1) (tax_rate (self_inputs self))) = true ->
  1 <= self_horizon_months self ->
  solve_required_capital crash_rate crash_years self
  = (Raise ZeroDivisionError,
     with_lump_sum self
       (quot (add (self_lump_sum self) (mul (self_lump_sum self) (of_int 10)))
             (of_int 2))).
Proof.
  intros Hz HH. unfold solve_required_capital, get_self. unfold mbind at 1.
  unfold mbind at 1. cbn [repeat_body]. unfold mbind at 1.
  unfold bisect, mbind, set_lump_sum, call.
  rewrite calculate_viability_raise; [reflexivity | exact Hz | exact HH].
Qed.

End Solver.

(** The bracket of a bisection: each end is the initial one or a point at
    which the verdict was observed. *)
Lemma bisection_high {num : Type} {arith : Arith num} (o : num -> bool)
    (n : nat) (low high : num) :
  snd (bisection o n low high) = high \/ o (snd (bisection o n low high)) = true.
Proof.
  revert low high. induction n as [|n IH]; intros low high; simpl; [auto|].
  destruct (o (quot (add low high) (of_int 2))) eqn:E.
  - destruct (IH low (quot (add low high) (of_int 2))) as [-> | H]; auto.
  - apply IH.
Qed.

Lemma bisection_low {num : Type} {arith : Arith num} (o : num -> bool)
    (n : nat) (low high : num) :
  fst (bisection o n low high) = low \/ o (fst (bisection o n low high)) = false.
Proof.
  revert low high. induction n as [|n IH]; intros low high; simpl; [auto|].
  destruct (o (quot (add low high) (of_int 2))) eqn:E.
  - apply IH.
  - destruct (IH (quot (add low high) (of_int 2)) high) as [-> | H]; auto.
Qed.

(** * Exact arithmetic *)

Section Exact.

Local Open Scope Q_scope.

Lemma add_Q (x y : Q) : add x y == x + y.
Proof. apply Qred_correct. Qed.

Lemma sub_Q (x y : Q) : sub x y == x - y.
Proof. apply Qred_correct. Qed.

Lemma mul_Q (x y : Q) : mul x y == x * y.
Proof. apply Qred_correct. Qed.

Lemma quot_Q (x y : Q) : quot x y == x / y.
Proof. apply Qred_correct. Qed.

Lemma le_Q_true (x y : Q) : le x y = true <-> x <= y.
Proof. apply Qle_bool_iff. Qed.

Lemma le_Q_false (x y : Q) : le x y = false <-> y < x.
Proof.
  simpl. split; intros H.
  - apply Qnot_le_lt. intros Hle. apply Qle_bool_iff in Hle. congruence.
  - destruct (Qle_bool x y) eqn:E; [|reflexivity].
    apply Qle_bool_iff in E. lra.
Qed.

Lemma is_zero_Q_false (x : Q) : is_zero x = false <-> ~ x == 0.
Proof.
  simpl. split; intros H.
  - apply Qeq_bool_neq, H.
  - destruct (Qeq_bool x 0) eqn:E; [|reflexivity].
    apply Qeq_bool_iff in E. contradiction.
Qed.

Lemma is_zero_Q_true (x : Q) : is_zero x = true <-> x == 0.
Proof. apply Qeq_bool_iff. Qed.

Lemma max0_Q_cases (x : Q) :
  (x <= 0 /\ max0 x = 0) \/ (0 < x /\ max0 x = x).
Proof.
  unfold max0. change (gt x (of_int 0)) with (negb (Qle_bool x 0)).
  change (of_int 0) with 0. destruct (Qle_bool x 0) eqn:E; cbn [negb].
  - left. split; [apply Qle_bool_iff, E | reflexivity].
  - right. split; [apply le_Q_false, E | reflexivity].
Qed.

Lemma max0_Q_nonneg (x : Q) : 0 <= max0 x.
Proof. destruct (max0_Q_cases x) as [[H ->] | [H ->]]; lra. Qed.

(** [max(0, x)] is the larger of the two. *)
Lemma max0_Q (x : Q) : max0 x == Qmax 0 x.
Proof.
  destruct (max0_Q_cases x) as [[H ->] | [H ->]]; symmetry.
  - apply Q.max_l, H.
  - apply Q.max_r. lra.
Qed.

Variable self : RetirementPlanner Q.

(** A tax rate other than 1 lets the gross-up division go through. *)
Lemma taxable_Q : ~ tax_rate (self_inputs self) == 1 -> taxable self.
Proof.
  intros Ht. apply is_zero_Q_false. rewrite sub_Q.
  change (of_int 1) with 1. lra.
Qed.

(** Below a tax rate of 1 the gross withdrawal is never negative. *)
Lemma gross_withdrawal_nonneg (cd ce w : Q) :
  tax_rate (self_inputs self) < 1 ->
  gross_withdrawal_of self cd ce = Ok w -> 0 <= w.
Proof.
  intros Ht. unfold gross_withdrawal_of, div.
  destruct (is_zero _); [discriminate|]. intros H.
  apply Ok_inj in H. subst w. rewrite quot_Q. apply Qle_shift_div_l.
  - rewrite sub_Q. change (of_int 1) with 1. lra.
  - rewrite Qmult_0_l. apply max0_Q_nonneg.
Qed.

(** Twelve times the monthly rate is the annual rate in force. *)
Lemma monthly_rate_Q (crash_rate : Q) (crash_years year : Z) :
  12 * monthly_rate_of self crash_rate crash_years year
  == (if (year <=? crash_years)%Z then crash_rate
      else expected_return (self_inputs self)).
Proof.
  unfold monthly_rate_of.
  destruct (year <=? crash_years)%Z; rewrite quot_Q;
    change (of_int 12) with 12; field.
Qed.

(** What one month does to the balance and the flag, as rationals: with
    [x] the balance after growth and withdrawal, either the balance is
    clamped at the first depletion or it is [x]. *)
Lemma month_Q (crash_rate : Q) (crash_years m : Z) (st st' : Locals Q) :
  month self crash_rate crash_years m st = Ok st' ->
  let esc := escalate self m (current_div st) (current_expense st) in
  exists w,
    gross_withdrawal_of self (fst esc) (snd esc) = Ok w /\
    current_div st' = fst esc /\ current_expense st' = snd esc /\
    let x := balance st
             + balance st
               * monthly_rate_of self crash_rate crash_years (year_of m)
             - w in
    (x <= 0 /\ is_solvent st = true /\
     balance st' = 0 /\ is_solvent st' = false)
    \/ (~ (x <= 0 /\ is_solvent st = true) /\
        balance st' == x /\ is_solvent st' = is_solvent st).
Proof.
  intros H. apply month_inv in H as (w & Hw & Hb & Hs & _ & Hcd & Hce & _).
  cbv zeta in *. exists w. repeat (split; [assumption|]).
  set (bal := sub (add (balance st) (mul (balance st) _)) w) in *.
  assert (Hx : bal == balance st
               + balance st
                 * monthly_rate_of self crash_rate crash_years (year_of m)
               - w).
  { unfold bal. rewrite sub_Q, add_Q, mul_Q. reflexivity. }
  destruct (le bal (of_int 0)) eqn:Hle.
  - apply le_Q_true in Hle. change (of_int 0) with 0 in *.
    destruct (is_solvent st) eqn:Hsol; cbn [andb] in Hb, Hs.
    + left. rewrite <- Hx. auto.
    + right. rewrite <- Hx, Hb. split; [|split]; auto; try reflexivity.
      intros [_ ?]; discriminate.
  - apply le_Q_false in Hle. change (of_int 0) with 0 in *.
    cbn [andb] in Hb, Hs. right. rewrite <- Hx, Hb.
    split; [|split]; auto; try reflexivity. intros [? _]. lra.
Qed.

End Exact.

(** * Starting capital and solvency, in exact arithmetic *)

Section Capital.

Local Open Scope Q_scope.

Variable self : RetirementPlanner Q.
Variable crash_rate : Q.
Variable crash_years : Z.

(** A run from another capital is the same loop from another start. *)
Lemma run_months_with_lump_sum (c : Q) (k : Z) :
  run_months (with_lump_sum self c) crash_rate crash_years k
  = for_each (month self crash_rate crash_years) (range 1 (k + 1))
             (start (with_lump_sum self c)).
Proof. reflexivity. Qed.

(** Two runs that agree on dividends and expenses withdraw the same. *)
Lemma same_withdrawal (m : Z) (a b : Locals Q) (w w' : Q) :
  current_div a = current_div b ->
  current_expense a = current_expense b ->
  gross_withdrawal_of self
    (fst (escalate self m (current_div a) (current_expense a)))
    (snd (escalate self m (current_div a) (current_expense a))) = Ok w ->
  gross_withdrawal_of self
    (fst (escalate self m (current_div b) (current_expense b)))
    (snd (escalate self m (current_div b) (current_expense b))) = Ok w' ->
  w' = w.
Proof. intros -> -> H1 H2. rewrite H1 in H2. symmetry. apply Ok_inj, H2. Qed.

(** While the run from the smaller capital is solvent, so is the run from
    the larger one, at a balance at least as high. *)
Lemma month_keeps_solvent (m : Z) (a b a' b' : Locals Q) :
  tax_rate (self_inputs self) < 1 ->
  current_div a = current_div b /\ current_expense a = current_expense b /\
  (is_solvent a = true ->
   is_solvent b = true /\ balance a <= balance b /\ 0 <= balance a) ->
  month self crash_rate crash_years m a = Ok a' ->
  month self crash_rate crash_years m b = Ok b' ->
  current_div a' = current_div b' /\ current_expense a' = current_expense b' /\
  (is_solvent a' = true ->
   is_solvent b' = true /\ balance a' <= balance b' /\ 0 <= balance a').
Proof.
  intros Ht (Hcd & Hce & Hab) Ha Hb.
  apply month_Q in Ha as (w & Hw & Hcda & Hcea & Hcase).
  apply month_Q in Hb as (w' & Hw' & Hcdb & Hceb & Hcase').
  assert (w' = w) by (apply (same_withdrawal m a b); assumption). subst w'.
  pose proof (gross_withdrawal_nonneg self _ _ w Ht Hw) as Hw0.
  cbv zeta in *.
  split; [rewrite Hcda, Hcdb, Hcd, Hce; reflexivity|].
  split; [rewrite Hcea, Hceb, Hcd, Hce; reflexivity|].
  set (r := monthly_rate_of self crash_rate crash_years (year_of m)) in *.
  intros Hsa'.
  destruct Hcase as [(_ & _ & _ & Hf) | (Hna & Hba & Hsa)]; [congruence|].
  rewrite Hsa' in Hsa. symmetry in Hsa.
  destruct (Hab Hsa) as (Hsb & Hle & H0).
  assert (Hxa : 0 < balance a + balance a * r - w).
  { apply Qnot_le_lt. intros Hc. apply Hna. auto. }
  assert (Hr : 0 <= 1 + r).
  { apply Qnot_lt_le. intros Hc. nra. }
  assert (Hxb : balance a + balance a * r - w
                <= balance b + balance b * r - w) by nra.
  destruct Hcase' as [(Hc & _) | (_ & Hbb & Hsb')]; [lra|].
  rewrite Hba, Hbb. repeat split; [congruence | lra | lra].
Qed.

(** Solvency is monotone in the starting capital. *)
Lemma solvent_at_mono (c1 c2 : Q) :
  tax_rate (self_inputs self) < 1 ->
  0 <= c1 -> c1 <= c2 ->
  solvent_at self crash_rate crash_years c1 = true ->
  solvent_at self crash_rate crash_years c2 = true.
Proof.
  intros Ht H0 Hle. unfold solvent_at.
  assert (Htax : taxable self) by (apply taxable_Q; lra).
  destruct (calculate_viability_ok (with_lump_sum self c1) crash_rate
              crash_years Htax) as (st1 & Hr1 & ->).
  destruct (calculate_viability_ok (with_lump_sum self c2) crash_rate
              crash_years Htax) as (st2 & Hr2 & ->).
  rewrite run_months_with_lump_sum in Hr1, Hr2. cbn [with_lump_sum
    self_horizon_months] in Hr1, Hr2.
  assert (HR : current_div st1 = current_div st2 /\
               current_expense st1 = current_expense st2 /\
               (is_solvent st1 = true ->
                is_solvent st2 = true /\ balance st1 <= balance st2 /\
                0 <= balance st1)).
  { apply (for_each_rel
      (fun a b =>
         current_div a = current_div b /\
         current_expense a = current_expense b /\
         (is_solvent a = true ->
          is_solvent b = true /\ balance a <= balance b /\ 0 <= balance a))
      (month self crash_rate crash_years) (month self crash_rate crash_years)
      (range 1 (self_horizon_months self + 1)))
      with (a := start (with_lump_sum self c1))
           (b := start (with_lump_sum self c2)); [ | | exact Hr1 | exact Hr2].
    - intros m a b a' b' _. apply month_keeps_solvent, Ht.
    - cbn. auto. }
  cbn. intros Hs. apply HR, Hs.
Qed.

(** ** The bracket of the bisection *)

Lemma midpoint_Q (low high : Q) :
  2 * quot (add low high) (of_int 2) == low + high.
Proof. rewrite quot_Q, add_Q. change (of_int 2) with 2. field. Qed.

(** Each halving halves the width of the bracket. *)
Lemma bisection_width (o : Q -> bool) (n : nat) (low high : Q) :
  (snd (bisection o n low high) - fst (bisection o n low high))
  * inject_Z (2 ^ Z.of_nat n)
  == high - low.
Proof.
  revert low high. induction n as [|n IH]; intros low high.
  - cbn [bisection fst snd]. change (inject_Z (2 ^ Z.of_nat 0)) with 1. lra.
  - cbn [bisection].
    rewrite Nat2Z.inj_succ, Z.pow_succ_r, inject_Z_mult by lia.
    change (inject_Z 2) with 2.
    pose proof (midpoint_Q low high) as Hmid.
    set (mid := quot (add low high) (of_int 2)) in *.
    destruct (o mid);
      [ specialize (IH low mid) | specialize (IH mid high) ]; nra.
Qed.

(** The bracket stays inside the initial one. *)
Lemma bisection_bounds (o : Q -> bool) (n : nat) (low high : Q) :
  low <= high ->
  low <= fst (bisection o n low high) /\
  fst (bisection o n low high) <= snd (bisection o n low high) /\
  snd (bisection o n low high) <= high.
Proof.
  revert low high. induction n as [|n IH]; intros low high Hle.
  - cbn [bisection fst snd]. lra.
  - cbn [bisection]. pose proof (midpoint_Q low high) as Hmid.
    set (mid := quot (add low high) (of_int 2)) in *.
    destruct (o mid);
      [ destruct (IH low mid) as (H1 & H2 & H3)
      | destruct (IH mid high) as (H1 & H2 & H3) ]; lra.
Qed.

(** When the lower end is already solvent every midpoint is, and the upper
    end comes down at each halving. *)
Lemma bisection_all_solvent (n : nat) (low high : Q) :
  tax_rate (self_inputs self) < 1 ->
  0 <= low -> low <= high ->
  solvent_at self crash_rate crash_years low = true ->
  fst (bisection (solvent_at self crash_rate crash_years) n low high) = low /\
  (snd (bisection (solvent_at self crash_rate crash_years) n low high) - low)
  * inject_Z (2 ^ Z.of_nat n) == high - low.
Proof.
  intros Ht H0 Hle Hlow. revert high Hle.
  induction n as [|n IH]; intros high Hle.
  - cbn [bisection fst snd]. split; [reflexivity|].
    change (inject_Z (2 ^ Z.of_nat 0)) with 1. lra.
  - cbn [bisection]. pose proof (midpoint_Q low high) as Hmid.
    set (mid := quot (add low high) (of_int 2)) in *.
    assert (Hlm : low <= mid) by lra.
    rewrite (solvent_at_mono low mid Ht H0 Hlm Hlow).
    destruct (IH mid Hlm) as [IH1 IH2].
    split; [exact IH1|].
    rewrite Nat2Z.inj_succ, Z.pow_succ_r, inject_Z_mult by lia.
    change (inject_Z 2) with 2. nra.
Qed.

End Capital.

(** * Capital and final balance, in exact arithmetic *)

Section FinalBalance.

Local Open Scope Q_scope.

Variable self : RetirementPlanner Q.
Variable crash_rate : Q.
Variable crash_years : Z.

(** With monthly growth factors that are not negative, a month keeps the
    order of two balances and of the two flags. *)
Lemma month_keeps_order (m : Z) (a b a' b' : Locals Q) :
  -12 <= crash_rate -> -12 <= expected_return (self_inputs self) ->
  current_div a = current_div b /\ current_expense a = current_expense b /\
  balance a <= balance b /\ (is_solvent a = true -> is_solvent b = true) ->
  month self crash_rate crash_years m a = Ok a' ->
  month self crash_rate crash_years m b = Ok b' ->
  current_div a' = current_div b' /\ current_expense a' = current_expense b' /\
  balance a' <= balance b' /\ (is_solvent a' = true -> is_solvent b' = true).
Proof.
  intros Hcr Her (Hcd & Hce & Hle & Hflag) Ha Hb.
  apply month_Q in Ha as (w & Hw & Hcda & Hcea & Hcase).
  apply month_Q in Hb as (w' & Hw' & Hcdb & Hceb & Hcase').
  assert (w' = w) by (apply (same_withdrawal self m a b); assumption).
  subst w'. cbv zeta in *.
  split; [rewrite Hcda, Hcdb, Hcd, Hce; reflexivity|].
  split; [rewrite Hcea, Hceb, Hcd, Hce; reflexivity|].
  pose proof (monthly_rate_Q self crash_rate crash_years (year_of m)) as Hr.
  set (r := monthly_rate_of self crash_rate crash_years (year_of m)) in *.
  assert (Hr1 : 0 <= 1 + r)
    by (destruct (year_of m <=? crash_years)%Z; lra).
  assert (Hx : balance a + balance a * r - w
               <= balance b + balance b * r - w) by nra.
  destruct Hcase as [(Hxa & Hsa & Hba & Hsa') | (Hna & Hba & Hsa')];
    destruct Hcase' as [(Hxb & Hsb & Hbb & Hsb') | (Hnb & Hbb & Hsb')];
    rewrite ?Hba, ?Hbb, ?Hsa', ?Hsb'.
  - split; [lra | intros; discriminate].
  - split; [|intros; discriminate].
    apply Qlt_le_weak, Qnot_le_lt. intros Hc. apply Hnb. auto.
  - split; [lra|]. intros Hs. exfalso. apply Hna. split; [lra | exact Hs].
  - split; [lra | exact Hflag].
Qed.

(** For annual rates of -1200% or more, a larger starting capital gives a
    final balance at least as large and keeps a solvent run solvent. *)
Lemma final_balance_mono (c1 c2 : Q) :
  -12 <= crash_rate -> -12 <= expected_return (self_inputs self) ->
  ~ tax_rate (self_inputs self) == 1 ->
  c1 <= c2 ->
  exists rows1 s1 msg1 rows2 s2 msg2,
    calculate_viability (with_lump_sum self c1) crash_rate crash_years
    = Ok (rows1, s1, msg1) /\
    calculate_viability (with_lump_sum self c2) crash_rate crash_years
    = Ok (rows2, s2, msg2) /\
    (s1 = true -> s2 = true) /\
    (forall x1 x2, final_balance rows1 = Some x1 ->
                   final_balance rows2 = Some x2 -> x1 <= x2).
Proof.
  intros Hcr Her Ht Hle.
  assert (Htax : taxable self) by (apply taxable_Q, Ht).
  destruct (calculate_viability_ok (with_lump_sum self c1) crash_rate
              crash_years Htax) as (st1 & Hr1 & Hcv1).
  destruct (calculate_viability_ok (with_lump_sum self c2) crash_rate
              crash_years Htax) as (st2 & Hr2 & Hcv2).
  exists (data st1), (is_solvent st1), (insolvency_msg st1),
         (data st2), (is_solvent st2), (insolvency_msg st2).
  split; [exact Hcv1|]. split; [exact Hcv2|].
  assert (HR : current_div st1 = current_div st2 /\
               current_expense st1 = current_expense st2 /\
               balance st1 <= balance st2 /\
               (is_solvent st1 = true -> is_solvent st2 = true)).
  { pose proof Hr1 as Hr1'. pose proof Hr2 as Hr2'.
    rewrite run_months_with_lump_sum in Hr1', Hr2'.
    apply (for_each_rel
      (fun a b =>
         current_div a = current_div b /\
         current_expense a = current_expense b /\
         balance a <= balance b /\
         (is_solvent a = true -> is_solvent b = true))
      (month self crash_rate crash_years) (month self crash_rate crash_years)
      (range 1 (self_horizon_months (with_lump_sum self c1) + 1)))
      with (a := start (with_lump_sum self c1))
           (b := start (with_lump_sum self c2));
      [ | | exact Hr1' | exact Hr2'].
    - intros m a b a' b' _. apply month_keeps_order; assumption.
    - cbn [start with_lump_sum self_lump_sum self_inputs balance current_div
             current_expense is_solvent]. auto. }
  split; [apply HR|].
  intros x1 x2 H1 H2.
  destruct (Z_lt_le_dec (self_horizon_months self) 1) as [Hlt|Hge].
  - exfalso. unfold run_months in Hr1.
    cbn [with_lump_sum self_horizon_months] in Hr1.
    unfold range in Hr1.
    replace (Z.to_nat (self_horizon_months self + 1 - 1)) with O in Hr1
      by lia.
    cbn [seq map for_each] in Hr1. apply Ok_inj in Hr1. subst st1.
    discriminate H1.
  - rewrite (final_balance_last (with_lump_sum self c1) crash_rate
               crash_years st1 Hge Hr1) in H1.
    rewrite (final_balance_last (with_lump_sum self c2) crash_rate
               crash_years st2 Hge Hr2) in H2.
    assert (E1 : x1 = balance st1) by congruence.
    assert (E2 : x2 = balance st2) by congruence.
    rewrite E1, E2. apply HR.
Qed.

End FinalBalance.

(** * The stress test against the baseline, in exact arithmetic *)

Section Shock.

Local Open Scope Q_scope.

Variable self : RetirementPlanner Q.
Variable crash_rate : Q.
Variable crash_years : Z.

Hypothesis tax_below_1 : tax_rate (self_inputs self) < 1.
Hypothesis shock_floor : -12 <= crash_rate.
Hypothesis shock_below : crash_rate < expected_return (self_inputs self).

(** One month of the shock (stressed locals [a], baseline locals [b]):
    the baseline, while solvent, stays ahead, strictly so after the month;
    once insolvent its balance is not positive. *)
Lemma shock_month (m : Z) (a b a' b' : Locals Q) :
  (1 <= m)%Z -> (year_of m <= crash_years)%Z ->
  current_div a = current_div b /\ current_expense a = current_expense b /\
  (is_solvent b = false -> balance b <= 0) /\
  (is_solvent b = true -> balance a <= balance b) ->
  month self crash_rate crash_years m a = Ok a' ->
  month self (of_int 0) 0 m b = Ok b' ->
  (current_div a' = current_div b' /\ current_expense a' = current_expense b' /\
   (is_solvent b' = false -> balance b' <= 0) /\
   (is_solvent b' = true -> balance a' <= balance b')) /\
  (is_solvent b' = true -> balance a' < balance b').
Proof.
  intros Hm Hy (Hcd & Hce & Hneg & Hle) Ha Hb.
  apply month_Q in Ha as (w & Hw & Hcda & Hcea & Hcase).
  apply month_Q in Hb as (w' & Hw' & Hcdb & Hceb & Hcase').
  assert (w' = w) by (apply (same_withdrawal self m a b); assumption).
  subst w'. cbv zeta in *.
  pose proof (gross_withdrawal_nonneg self _ _ w tax_below_1 Hw) as Hw0.
  pose proof (monthly_rate_Q self crash_rate crash_years (year_of m)) as Hrs.
  pose proof (monthly_rate_Q self (of_int 0) 0 (year_of m)) as Hrb.
  replace (year_of m <=? crash_years)%Z with true in Hrs
    by (symmetry; apply Z.leb_le; exact Hy).
  replace (year_of m <=? 0)%Z with false in Hrb
    by (symmetry; apply Z.leb_gt; unfold year_of;
        Z.div_mod_to_equations; lia).
  set (rs := monthly_rate_of self crash_rate crash_years (year_of m)) in *.
  set (rb := monthly_rate_of self (of_int 0) 0 (year_of m)) in *.
  assert (Hstrict : is_solvent b' = true -> balance a' < balance b').
  { intros Hsb'.
    destruct Hcase' as [(_ & _ & _ & Hf) | (Hnb & Hbb & Hsb)]; [congruence|].
    rewrite Hsb' in Hsb. symmetry in Hsb. specialize (Hle Hsb).
    assert (Hxb : 0 < balance b + balance b * rb - w).
    { apply Qnot_le_lt. intros Hc. apply Hnb. auto. }
    assert (Hbpos : 0 < balance b) by nra.
    assert (Hxa : balance a + balance a * rs - w
                  < balance b + balance b * rb - w).
    { destruct (Qlt_le_dec 0 (balance a)); nra. }
    destruct Hcase as [(_ & _ & Hba & _) | (_ & Hba & _)];
      rewrite Hba, Hbb; lra. }
  split; [|exact Hstrict].
  split; [rewrite Hcda, Hcdb, Hcd, Hce; reflexivity|].
  split; [rewrite Hcea, Hceb, Hcd, Hce; reflexivity|].
  split; [|intros Hs; apply Qlt_le_weak, Hstrict, Hs].
  intros Hsb'.
  destruct Hcase' as [(_ & _ & Hbb & _) | (Hnb & Hbb & Hsb)];
    rewrite Hbb; [lra|].
  rewrite Hsb' in Hsb. symmetry in Hsb. specialize (Hneg Hsb). nra.
Qed.

(** At the end of any year within the shock, the stressed balance is
    strictly below a positive baseline balance. *)
Lemma shock_lowers_balance (y : Z) (a b : Locals Q) :
  (1 <= y <= crash_years)%Z ->
  run_months self crash_rate crash_years (12 * y) = Ok a ->
  run_months self (of_int 0) 0 (12 * y) = Ok b ->
  0 < balance b -> balance a < balance b.
Proof.
  intros Hy Ha Hb Hpos.
  rewrite (run_months_split self _ _ (12 * y - 1) (12 * y)) in Ha by lia.
  rewrite (run_months_split self _ _ (12 * y - 1) (12 * y)) in Hb by lia.
  apply bind_ok_inv in Ha as (a0 & Ha0 & Ha).
  apply bind_ok_inv in Hb as (b0 & Hb0 & Hb).
  replace (12 * y - 1 + 1)%Z with (12 * y)%Z in Ha, Hb by lia.
  rewrite range_snoc, range_nil in Ha, Hb by lia.
  cbn [for_each app] in Ha, Hb.
  apply bind_ok_inv in Ha as (a1 & Ha1 & Ea). apply Ok_inj in Ea. subst a1.
  apply bind_ok_inv in Hb as (b1 & Hb1 & Eb). apply Ok_inj in Eb. subst b1.
  assert (HR : current_div a0 = current_div b0 /\
               current_expense a0 = current_expense b0 /\
               (is_solvent b0 = false -> balance b0 <= 0) /\
               (is_solvent b0 = true -> balance a0 <= balance b0)).
  { unfold run_months in Ha0, Hb0.
    apply (for_each_rel
      (fun a b =>
         current_div a = current_div b /\
         current_expense a = current_expense b /\
         (is_solvent b = false -> balance b <= 0) /\
         (is_solvent b = true -> balance a <= balance b))
      (month self crash_rate crash_years) (month self (of_int 0) 0)
      (range 1 (12 * y - 1 + 1)))
      with (a := start self) (b := start self);
      [ | | exact Ha0 | exact Hb0].
    - intros m s t s' t' Hin HR Hs Ht. apply in_range in Hin.
      apply (shock_month m s t s' t'); auto; try lia.
      unfold year_of. Z.div_mod_to_equations. lia.
    - cbn [start balance current_div current_expense is_solvent].
      split; [reflexivity|]. split; [reflexivity|].
      split; [discriminate | intros; lra]. }
  destruct (shock_month (12 * y) a0 b0 a b) as [(_ & _ & Hneg & _) Hstrict];
    auto; try lia.
  { rewrite year_of_boundary. lia. }
  apply Hstrict. destruct (is_solvent b); [reflexivity|].
  specialize (Hneg eq_refl). lra.
Qed.

End Shock.

(** * The withdrawal-rate classifier *)

Section Classifier.

Local Open Scope Q_scope.

Lemma threshold_excellent : quot (of_int 35) (of_int 1000) == 35 # 1000.
Proof. vm_compute. reflexivity. Qed.

Lemma threshold_good : quot (of_int 45) (of_int 1000) == 45 # 1000.
Proof. vm_compute. reflexivity. Qed.

Lemma threshold_risky : quot (of_int 6) (of_int 100) == 6 # 100.
Proof. vm_compute. reflexivity. Qed.

(** The tier of a rate, by the inclusive upper bounds of the code. *)
Lemma tier_of_rate (r rate : Q) :
  r == rate ->
  exists tier,
    (if le r (quot (of_int 35) (of_int 1000)) then Ok (r, EXCELLENT)
     else if le r (quot (of_int 45) (of_int 1000)) then Ok (r, GOOD)
     else if le r (quot (of_int 6) (of_int 100)) then Ok (r, RISKY)
     else Ok (r, DANGER)) = Ok (r, tier) /\
    (rate <= 35 # 1000 -> tier = EXCELLENT) /\
    (35 # 1000 < rate -> rate <= 45 # 1000 -> tier = GOOD) /\
    (45 # 1000 < rate -> rate <= 6 # 100 -> tier = RISKY) /\
    (6 # 100 < rate -> tier = DANGER).
Proof.
  intros Hr.
  destruct (le r (quot (of_int 35) (of_int 1000))) eqn:E1;
    [ apply le_Q_true in E1 | apply le_Q_false in E1 ];
    rewrite threshold_excellent, Hr in E1.
  { exists EXCELLENT. repeat split; intros; solve [reflexivity | lra]. }
  destruct (le r (quot (of_int 45) (of_int 1000))) eqn:E2;
    [ apply le_Q_true in E2 | apply le_Q_false in E2 ];
    rewrite threshold_good, Hr in E2.
  { exists GOOD. repeat split; intros; solve [reflexivity | lra]. }
  destruct (le r (quot (of_int 6) (of_int 100))) eqn:E3;
    [ apply le_Q_true in E3 | apply le_Q_false in E3 ];
    rewrite threshold_risky, Hr in E3.
  { exists RISKY. repeat split; intros; solve [reflexivity | lra]. }
  exists DANGER. repeat split; intros; solve [reflexivity | lra].
Qed.

End Classifier.

(** * The specification's claims *)

Section ClassifierClaims.

Local Open Scope Q_scope.



End ClassifierClaims.

(** The boundaries of the tiers, in exact and in binary64 arithmetic: a
    rate of exactly 3.5% is EXCELLENT, 3.500001% and exactly 4.5% are
    GOOD, exactly 6% is RISKY and 6.1% is DANGER. *)
Example classifier_boundaries :
  let tier_of {num : Type} {arith : Arith num} (capital spend : Z) :=
    match calculate_swr_health (init (@plain num _ capital spend 10 (of_int 0)))
    with
    | Ok (_, tier) => Some tier
    | Raise _ => None
    end in
  (@tier_of Q _ 12000 35 = Some EXCELLENT /\
   @tier_of Q _ 12000000000 35000010 = Some GOOD /\
   @tier_of Q _ 12000 45 = Some GOOD /\
   @tier_of Q _ 12000 60 = Some RISKY /\
   @tier_of Q _ 12000 61 = Some DANGER) /\
  (@tier_of float _ 12000 35 = Some EXCELLENT /\
   @tier_of float _ 12000000000 35000010 = Some GOOD /\
   @tier_of float _ 12000 45 = Some GOOD /\
   @tier_of float _ 12000 60 = Some RISKY /\
   @tier_of float _ 12000 61 = Some DANGER).
Proof.
  cbv zeta.
  split; (split; [|split; [|split; [|split]]]); vm_compute; reflexivity.
Qed.

(** C10. The classifier reads nothing but the target spend, the two
    incomes, the tax rate and the starting capital: two inputs that agree
    on these five fields are classified alike, whatever their horizon,
    inflation rate, dividend growth and expected return. *)
Theorem classifier_reads_five_fields {num : Type} {arith : Arith num}
    (i1 i2 : Inputs num) :
  target_payout i1 = target_payout i2 ->
  other_income i1 = other_income i2 ->
  current_dividends i1 = current_dividends i2 ->
  tax_rate i1 = tax_rate i2 ->
  lump_sum i1 = lump_sum i2 ->
  calculate_swr_health (init i1) = calculate_swr_health (init i2).
Proof.
  intros H1 H2 H3 H4 H5. unfold calculate_swr_health.
  cbn [init self_inputs self_lump_sum].
  rewrite H1, H2, H3, H4, H5. reflexivity.
Qed.

(** The default scenario and its variant of 40 years, 5% inflation, no
    dividend growth and a return of -3%. *)
Lemma classifier_reads_five_fields_witness :
  calculate_swr_health (init (@golden Q _))
  = calculate_swr_health (init (@golden_variant Q _)).
Proof.
  apply (classifier_reads_five_fields golden golden_variant); reflexivity.
Defined.

(** C9. When [solve_required_capital] returns, the planner is as it was
    before the call: the same inputs and the same starting capital. *)
Theorem solver_restores_planner {num : Type} {arith : Arith num}
    (self self' : RetirementPlanner num) (crash_rate : num)
    (crash_years : Z) (required : num) :
  solve_required_capital crash_rate crash_years self = (Ok required, self') ->
  self' = self /\
  self_inputs self' = self_inputs self /\
  self_lump_sum self' = self_lump_sum self.
Proof.
  intros H. apply solve_required_capital_frame in H. subst self'. auto.
Qed.

(** The solver run on the scenario that needs 6000 from a capital of
    1000: it returns 6000.0000037 and the planner is unchanged. *)
Lemma solver_restores_planner_witness :
  exists required self',
    solve_required_capital (of_int 0) 0 (init (@within_reach Q _))
    = (Ok required, self') /\
    self' = init within_reach /\
    self_inputs self' = self_inputs (init within_reach) /\
    self_lump_sum self' = self_lump_sum (init within_reach).
Proof.
  assert (H : solve_required_capital (of_int 0) 0 (init (@within_reach Q _))
              = (Ok (201326592125 # 33554432)%Q, init within_reach))
    by (vm_compute; reflexivity).
  exists (201326592125 # 33554432)%Q, (init within_reach).
  split; [exact H|].
  exact (solver_restores_planner _ _ _ _ _ H).
Defined.

(** C1. The claim asks that, once the balance has reached 0, the flag stay
    false, the depletion year be kept and the balance be exactly 0 in
    every later month and sample.  The flag and the message behave so
    ([insolvent_forever], [status_message]); the balance does not: the
    clamp sits under the test [is_solvent], so it is applied in the month
    of depletion only ([month_after_depletion]).  With a capital of 100 and a spend of 100 a month
    over 10 years, the balance is 0 after month 1 and -100 after month 2,
    and the ten yearly samples run from -1100 down to -11900, in exact and
    in binary64 arithmetic alike. *)
Theorem depleted_balance_keeps_falling :
  (exists st1 st2,
     run_months (init (@spent_at_once Q _)) (of_int 0) 0 1 = Ok st1 /\
     balance st1 = of_int 0 /\ is_solvent st1 = false /\
     run_months (init (@spent_at_once Q _)) (of_int 0) 0 2 = Ok st2 /\
     balance st2 = of_int (-100) /\ is_solvent st2 = false) /\
  (exists rows,
     calculate_viability (init (@spent_at_once Q _)) (of_int 0) 0
     = Ok (rows, false, "DEPLETED (Year 1)"%string) /\
     map Year rows = range 1 11 /\
     map Balance rows
     = map of_int [-1100; -2300; -3500; -4700; -5900;
                   -7100; -8300; -9500; -10700; -11900]) /\
  (exists rows,
     calculate_viability (init (@spent_at_once float _)) (of_int 0) 0
     = Ok (rows, false, "DEPLETED (Year 1)"%string) /\
     map Year rows = range 1 11 /\
     map Balance rows
     = map of_int [-1100; -2300; -3500; -4700; -5900;
                   -7100; -8300; -9500; -10700; -11900]).
Proof.
  split; [|split].
  - exists {| balance := of_int 0; current_div := of_int 0;
              current_expense := of_int 100; data := [];
              is_solvent := false;
              insolvency_msg := "DEPLETED (Year 1)" |},
           {| balance := of_int (-100); current_div := of_int 0;
              current_expense := of_int 100; data := [];
              is_solvent := false;
              insolvency_msg := "DEPLETED (Year 1)" |}.
    split; [|split; [|split; [|split; [|split]]]]; vm_compute; reflexivity.
  - exists (match calculate_viability (init (@spent_at_once Q _)) (of_int 0) 0
            with Ok (rows, _, _) => rows | Raise _ => [] end).
    split; [|split]; vm_compute; reflexivity.
  - exists (match calculate_viability (init (@spent_at_once float _))
                    (of_int 0) 0
            with Ok (rows, _, _) => rows | Raise _ => [] end).
    split; [|split]; vm_compute; reflexivity.
Qed.

(** C4. The claim asks that a larger starting capital never lower the
    final balance.  Because a depleted balance is not held at 0, it does:
    over 10 years with a flat first year (a shock of 0% for 1 year)
    followed by a return of -2400% a year and a spend of 50 a month, a
    capital of 600 ends at 0 and a capital of 10000 ends at -50, in exact
    and in binary64 arithmetic alike.  (For annual rates of -1200% or more
    the claim holds: [final_balance_mono].) *)
Theorem larger_capital_lower_final_balance :
  (exists rows1 rows2,
     calculate_viability (init (@collapse Q _ 600)) (of_int 0) 1
     = Ok (rows1, false, depleted_msg 1) /\
     calculate_viability (init (@collapse Q _ 10000)) (of_int 0) 1
     = Ok (rows2, false, depleted_msg 2) /\
     final_balance rows1 = Some (of_int 0) /\
     final_balance rows2 = Some (of_int (-50))) /\
  (exists rows1 rows2,
     calculate_viability (init (@collapse float _ 600)) (of_int 0) 1
     = Ok (rows1, false, depleted_msg 1) /\
     calculate_viability (init (@collapse float _ 10000)) (of_int 0) 1
     = Ok (rows2, false, depleted_msg 2) /\
     final_balance rows1 = Some (of_int 0) /\
     final_balance rows2 = Some (of_int (-50))).
Proof.
  split.
  - exists (match calculate_viability (init (@collapse Q _ 600)) (of_int 0) 1
            with Ok (rows, _, _) => rows | Raise _ => [] end),
           (match calculate_viability (init (@collapse Q _ 10000)) (of_int 0) 1
            with Ok (rows, _, _) => rows | Raise _ => [] end).
    split; [|split; [|split]]; vm_compute; reflexivity.
  - exists (match calculate_viability (init (@collapse float _ 600))
                    (of_int 0) 1
            with Ok (rows, _, _) => rows | Raise _ => [] end),
           (match calculate_viability (init (@collapse float _ 10000))
                    (of_int 0) 1
            with Ok (rows, _, _) => rows | Raise _ => [] end).
    split; [|split; [|split]]; vm_compute; reflexivity.
Qed.

(** C3. The default scenario (capital 500000, fixed income 1500, dividends
    500, target spend 4000, tax 15%, 25 years, inflation 2.5%, dividend
    growth 3%, return 7%, no shock): the data frame has exactly 25 rows,
    for the years 1 to 25 in increasing order; the gross withdrawal of
    every month of the first year, and so the one in the first row, is
    [max(0, 4000 - 2000) / 0.85 = 2352.94...]; in binary64 the run ends
    solvent with a final balance between 143956 and 143957. *)
Theorem golden_trajectory :
  (exists rows solvent msg,
     calculate_viability (init (@golden Q _)) (of_int 0) 0
     = Ok (rows, solvent, msg) /\
     map Year rows = range 1 26 /\ List.length rows = 25%nat /\
     option_map Withdrawal_Gross (hd_error rows) = Some (40000 # 17)%Q) /\
  Forall (fun m => withdrawal_in_month (init (@golden Q _)) (of_int 0) 0 m
                   = Ok (40000 # 17)%Q) (range 1 13) /\
  ((40000 # 17) == Qmax 0 (4000 - (1500 + 500)) / (85 # 100) /\
   23529411 # 10000 < 40000 # 17 /\ 40000 # 17 < 23529412 # 10000)%Q /\
  match calculate_viability (init (@golden float _)) (of_int 0) 0 with
  | Ok (rows, solvent, msg) =>
      map Year rows = range 1 26 /\ List.length rows = 25%nat /\
      option_map Withdrawal_Gross (hd_error rows)
      = Some (quot (of_int 2000) (quot (of_int 85) (of_int 100))) /\
      solvent = true /\ msg = "Solvent"%string /\
      exists x, final_balance rows = Some x /\
                le (of_int 143956) x = true /\ le x (of_int 143957) = true
  | Raise _ => False
  end /\
  Forall (fun m => withdrawal_in_month (init (@golden float _)) (of_int 0) 0 m
                   = Ok (quot (of_int 2000) (quot (of_int 85) (of_int 100))))
         (range 1 13).
Proof.
  split; [|split; [|split; [|split]]].
  - assert (Ht : taxable (init (@golden Q _))) by (vm_compute; reflexivity).
    destruct (calculate_viability_ok (init golden) (of_int 0) 0 Ht)
      as (st & Hrun & Hcv).
    exists (data st), (is_solvent st), (insolvency_msg st).
    split; [exact Hcv|].
    destruct (trajectory_years (init golden) (of_int 0) 0 25 _ _ _
                ltac:(lia) eq_refl Hcv) as [Hy Hl].
    split; [exact Hy|]. split; [exact Hl|].
    set (r12 := run_months (init (@golden Q _)) (of_int 0) 0 12).
    assert (H12 : exists st12,
               r12 = Ok st12 /\
               exists r rest, data st12 = r :: rest /\
                              Withdrawal_Gross r = (40000 # 17)%Q).
    { exists (match r12 with Ok s => s | Raise _ => start (init golden) end).
      split; [vm_compute; reflexivity|].
      exists {| Year := 1; Expenses_Net := of_int 4000;
                Withdrawal_Gross := (40000 # 17)%Q;
                Balance := match r12 with
                           | Ok s => balance s
                           | Raise _ => of_int 0
                           end |}, [].
      split; vm_compute; reflexivity. }
    destruct H12 as (st12 & E12 & r & rest & Hd & Hw).
    destruct (rows_extend_prefix (init golden) (of_int 0) 0 12 st12 _ _ _
                ltac:(cbn; lia) E12 Hcv) as (ext & ->).
    rewrite Hd. cbn [app hd_error option_map]. rewrite Hw. reflexivity.
  - change (range 1 13) with [1; 2; 3; 4; 5; 6; 7; 8; 9; 10; 11; 12].
    repeat (constructor; [vm_compute; reflexivity|]). constructor.
  - vm_compute. repeat split; reflexivity.
  - vm_compute. repeat split; try reflexivity.
    eexists. repeat split; reflexivity.
  - change (range 1 13) with [1; 2; 3; 4; 5; 6; 7; 8; 9; 10; 11; 12].
    repeat (constructor; [vm_compute; reflexivity|]). constructor.
Qed.

Section SolverClaims.

Local Open Scope Q_scope.

Variable self : RetirementPlanner Q.
Variable crash_rate : Q.
Variable crash_years : Z.



End SolverClaims.





Section ValidationClaims.

Local Open Scope Q_scope.

Variable self : RetirementPlanner Q.
Variable crash_rate : Q.
Variable crash_years : Z.

Lemma classifier_returns_when_taxable :
  taxable self -> exists r, calculate_swr_health self = Ok r.
Proof.
  intros Ht. unfold calculate_swr_health.
  destruct (le _ (of_int 0)); [eauto|].
  unfold div at 1. rewrite Ht. cbn [bind].
  destruct (le (self_lump_sum self) (of_int 0)) eqn:Hcap; [eauto|].
  apply le_Q_false in Hcap. change (of_int 0) with 0 in Hcap.
  unfold div.
  replace (is_zero (self_lump_sum self)) with false
    by (symmetry; apply is_zero_Q_false; lra).
  cbn [bind].
  repeat match goal with |- context [if ?b then _ else _] => destruct b end;
    eauto.
Qed.


End ValidationClaims.



Section ShockClaims.

Local Open Scope Q_scope.

Lemma shock_rate_Q : shock_rate == - (1 # 5).
Proof. vm_compute. reflexivity. Qed.


End ShockClaims.



(** * Further properties of the simulator, for every arithmetic *)

Lemma for_each_ext {S : Type} (f g : Z -> S -> result S) (ms : list Z) :
  (forall m s, In m ms -> f m s = g m s) ->
  forall s, for_each f ms s = for_each g ms s.
Proof.
  induction ms as [|m ms IH]; intros Hfg s; cbn [for_each]; [reflexivity|].
  rewrite (Hfg m s (or_introl eq_refl)).
  destruct (g m s) as [s'|e]; cbn [bind]; [|reflexivity].
  apply IH. intros m0 s0 Hin. apply Hfg. right. exact Hin.
Qed.

Lemma year_of_bounds (k m : Z) : 1 <= m <= k -> 1 <= year_of m <= year_of k.
Proof. unfold year_of. intros H. Z.div_mod_to_equations. lia. Qed.

Section SimulatorExtras.

Context {num : Type} {arith : Arith num}.
Variable self : RetirementPlanner num.
Variable crash_rate : num.
Variable crash_years : Z.

(** X1. Whenever [1 - tax_rate] is not zero the loop reaches every month,
    and once the solvency flag is false after some month it is false
    after every later month, with the same status message. *)
Theorem flag_and_message_persist (k k' : Z) :
  taxable self -> 0 <= k <= k' ->
  exists st st',
    run_months self crash_rate crash_years k = Ok st /\
    run_months self crash_rate crash_years k' = Ok st' /\
    (is_solvent st = false ->
     is_solvent st' = false /\ insolvency_msg st' = insolvency_msg st).
Proof.
  intros Ht Hk.
  destruct (run_months_ok self crash_rate crash_years k Ht) as (st & Hst).
  destruct (run_months_ok self crash_rate crash_years k' Ht) as (st' & Hst').
  exists st, st'. split; [exact Hst|]. split; [exact Hst'|].
  apply (insolvent_forever self crash_rate crash_years k k'); assumption.
Qed.

(** X2. The status returned with the data frame is "Solvent" exactly when
    the flag is true; otherwise it is "DEPLETED (Year y)" for a year [y]
    of the horizon. *)
Theorem status_matches_flag :
  taxable self ->
  exists rows solvent msg,
    calculate_viability self crash_rate crash_years = Ok (rows, solvent, msg) /\
    if solvent then msg = "Solvent"%string
    else exists y, 1 <= y <= year_of (self_horizon_months self) /\
                   msg = depleted_msg y.
Proof.
  intros Ht.
  destruct (calculate_viability_ok self crash_rate crash_years Ht)
    as (st & Hrun & Hcv).
  exists (data st), (is_solvent st), (insolvency_msg st).
  split; [exact Hcv|].
  pose proof (status_message self crash_rate crash_years _ st Hrun) as Hmsg.
  destruct (is_solvent st); [exact Hmsg|].
  destruct Hmsg as (m & Hm & ->). exists (year_of m).
  split; [apply year_of_bounds, Hm | reflexivity].
Qed.

(** X4. With a horizon of no month the loop body never runs: the data
    frame is empty and the result is solvent, whatever the tax rate. *)
Theorem empty_horizon :
  self_horizon_months self <= 0 ->
  calculate_viability self crash_rate crash_years
  = Ok ([], true, "Solvent"%string).
Proof.
  intros HH. unfold calculate_viability, run_months, range.
  replace (Z.to_nat (self_horizon_months self + 1 - 1)) with O by lia.
  reflexivity.
Qed.

(** X5. The row of year [y] holds the balance as it stands at the end of
    month [12 * y], after that month's withdrawal and clamp. *)
Theorem row_holds_year_end_balance (y : Z) :
  taxable self -> 1 <= y -> 12 * y <= self_horizon_months self ->
  exists st rows solvent msg,
    run_months self crash_rate crash_years (12 * y) = Ok st /\
    calculate_viability self crash_rate crash_years = Ok (rows, solvent, msg) /\
    balance_at_year y rows = Some (balance st).
Proof.
  intros Ht Hy HH.
  destruct (run_months_ok self crash_rate crash_years (12 * y) Ht)
    as (st & Hst).
  destruct (calculate_viability_ok self crash_rate crash_years Ht)
    as (stH & _ & Hcv).
  exists st, (data stH), (is_solvent stH), (insolvency_msg stH).
  split; [exact Hst|]. split; [exact Hcv|].
  apply (balance_at_year_sample self crash_rate crash_years y st _ _ _
           Hy HH Hst Hcv).
Qed.

(** A shock that lasts no year changes no month. *)
Lemma month_without_shock (m : Z) (st : Locals num) :
  crash_years <= 0 -> 1 <= m ->
  month self crash_rate crash_years m st = month self (of_int 0) 0 m st.
Proof.
  intros Hc Hm. unfold month, monthly_rate_of.
  replace (year_of m <=? crash_years) with false
    by (symmetry; apply Z.leb_gt; unfold year_of;
        Z.div_mod_to_equations; lia).
  replace (year_of m <=? 0) with false
    by (symmetry; apply Z.leb_gt; unfold year_of;
        Z.div_mod_to_equations; lia).
  reflexivity.
Qed.

(** X8. A shock of duration 0 (or less) is no shock: whatever the crash
    rate, the result is that of the baseline call. *)
Theorem shock_of_no_duration :
  crash_years <= 0 ->
  calculate_viability self crash_rate crash_years
  = calculate_viability self (of_int 0) 0.
Proof.
  intros Hc. unfold calculate_viability, run_months.
  rewrite (for_each_ext (month self crash_rate crash_years)
             (month self (of_int 0) 0)); [reflexivity|].
  intros m s Hin. apply in_range in Hin.
  apply month_without_shock; [exact Hc | lia].
Qed.

End SimulatorExtras.

Section EscalationExtras.

Context {num : Type} {arith : Arith num}.
Variable self : RetirementPlanner num.
Variable crash_rate : num.
Variable crash_years : Z.

Lemma run_months_succ (k : Z) :
  0 <= k ->
  run_months self crash_rate crash_years (k + 1)
  = bind (run_months self crash_rate crash_years k)
         (month self crash_rate crash_years (k + 1)).
Proof.
  intros Hk. rewrite (run_months_split self _ _ k (k + 1)) by lia.
  rewrite range_snoc, range_nil by lia. cbn [app for_each].
  destruct (run_months self crash_rate crash_years k) as [st|e];
    cbn [bind]; [|reflexivity].
  destruct (month self crash_rate crash_years (k + 1) st); reflexivity.
Qed.

(** The escalation at month [k + 1] takes the values of year
    [(k - 1) / 12 + 1] to those of year [k / 12 + 1]. *)
Lemma escalate_by_year (k : Z) :
  0 <= k ->
  escalate self (k + 1)
    (escalated (gdp_growth (self_inputs self)) (Z.to_nat ((k - 1) / 12))
               (current_dividends (self_inputs self)))
    (escalated (inflation_rate (self_inputs self)) (Z.to_nat ((k - 1) / 12))
               (target_payout (self_inputs self)))
  = (escalated (gdp_growth (self_inputs self)) (Z.to_nat (k / 12))
               (current_dividends (self_inputs self)),
     escalated (inflation_rate (self_inputs self)) (Z.to_nat (k / 12))
               (target_payout (self_inputs self))).
Proof.
  intros Hk. unfold escalate.
  replace (k + 1 - 1) with k by lia.
  destruct ((1 <? k + 1) && (k mod 12 =? 0)) eqn:E.
  - apply andb_true_iff in E as [E1 E2].
    apply Z.ltb_lt in E1. apply Z.eqb_eq in E2.
    replace (Z.to_nat (k / 12)) with (S (Z.to_nat ((k - 1) / 12)))
      by (Z.div_mod_to_equations; lia).
    reflexivity.
  - replace (Z.to_nat (k / 12)) with (Z.to_nat ((k - 1) / 12));
      [reflexivity|].
    apply andb_false_iff in E as [E|E].
    + apply Z.ltb_ge in E. assert (k = 0) by lia. subst k. reflexivity.
    + apply Z.eqb_neq in E. Z.div_mod_to_equations. lia.
Qed.

(** After [k] months the dividends and the expenses have been escalated
    once for every year begun after the first, and every row shows the
    expenses of its year. *)
Lemma escalation_invariant (k : Z) :
  0 <= k ->
  forall st,
    run_months self crash_rate crash_years k = Ok st ->
    current_div st
    = escalated (gdp_growth (self_inputs self)) (Z.to_nat ((k - 1) / 12))
                (current_dividends (self_inputs self)) /\
    current_expense st
    = escalated (inflation_rate (self_inputs self)) (Z.to_nat ((k - 1) / 12))
                (target_payout (self_inputs self)) /\
    Forall (fun r => Expenses_Net r
                     = escalated (inflation_rate (self_inputs self))
                                 (Z.to_nat (Year r - 1))
                                 (target_payout (self_inputs self)))
           (data st).
Proof.
  intros Hk. pattern k. apply natlike_ind; [ | | exact Hk]; clear k Hk.
  - intros st Hrun. unfold run_months in Hrun.
    change (range 1 (0 + 1)) with (@nil Z) in Hrun.
    cbn [for_each] in Hrun. apply Ok_inj in Hrun. subst st.
    cbn [start current_div current_expense data].
    repeat split. constructor.
  - intros k Hk IH st Hrun.
    replace (Z.succ k) with (k + 1) in * by lia.
    rewrite run_months_succ in Hrun by lia.
    apply bind_ok_inv in Hrun as (st0 & Hst0 & Hm).
    destruct (IH st0 Hst0) as (Hcd & Hce & Hrows).
    apply month_inv in Hm as (w & _ & _ & _ & _ & Hcd' & Hce' & Hd).
    rewrite Hcd, Hce, escalate_by_year in Hcd', Hce', Hd by lia.
    cbn [fst snd] in Hcd', Hce', Hd.
    replace (k + 1 - 1) with k by lia.
    split; [exact Hcd'|]. split; [exact Hce'|].
    rewrite Hd. destruct (_ || _); [|exact Hrows].
    apply Forall_app. split; [exact Hrows|].
    constructor; [|constructor]. cbn [Expenses_Net Year].
    unfold year_of. replace (k + 1 - 1) with k by lia.
    replace (k / 12 + 1 - 1) with (k / 12) by lia. reflexivity.
Qed.

(** X6. Expenses compound once a year: in every row of the data frame the
    net expenses are the target spend multiplied by [1 + inflation_rate]
    once for each year before the row's. *)
Theorem rows_show_escalated_expenses :
  taxable self ->
  exists rows solvent msg,
    calculate_viability self crash_rate crash_years = Ok (rows, solvent, msg) /\
    Forall (fun r => Expenses_Net r
                     = escalated (inflation_rate (self_inputs self))
                                 (Z.to_nat (Year r - 1))
                                 (target_payout (self_inputs self)))
           rows.
Proof.
  intros Ht.
  destruct (calculate_viability_ok self crash_rate crash_years Ht)
    as (st & Hrun & Hcv).
  exists (data st), (is_solvent st), (insolvency_msg st).
  split; [exact Hcv|].
  destruct (Z_lt_le_dec (self_horizon_months self) 0) as [Hneg|Hpos].
  - unfold run_months, range in Hrun.
    replace (Z.to_nat (self_horizon_months self + 1 - 1)) with O in Hrun
      by lia.
    cbn [seq map for_each] in Hrun. apply Ok_inj in Hrun. subst st.
    constructor.
  - apply (escalation_invariant _ Hpos st Hrun).
Qed.

End EscalationExtras.

(** X3. For a planner built by [__init__] from a horizon of [h >= 0]
    years, the data frame has exactly [h] rows, for the years
    [1, 2, ..., h] in this order. *)
Theorem one_row_per_year {num : Type} {arith : Arith num}
    (inputs : Inputs num) (crash_rate : num) (crash_years : Z) :
  taxable (init inputs) -> 0 <= horizon_years inputs ->
  exists rows solvent msg,
    calculate_viability (init inputs) crash_rate crash_years
    = Ok (rows, solvent, msg) /\
    map Year rows = range 1 (horizon_years inputs + 1) /\
    List.length rows = Z.to_nat (horizon_years inputs).
Proof.
  intros Ht Hh.
  destruct (calculate_viability_ok (init inputs) crash_rate crash_years Ht)
    as (st & _ & Hcv).
  exists (data st), (is_solvent st), (insolvency_msg st).
  split; [exact Hcv|].
  apply (trajectory_years (init inputs) crash_rate crash_years
           (horizon_years inputs) (data st) (is_solvent st)
           (insolvency_msg st) Hh); [|exact Hcv].
  cbn [init self_horizon_months]. lia.
Qed.

(** X13. With [1 - tax_rate = 0] and a horizon of at least one month the
    solver raises [ZeroDivisionError] out of its first simulation, before
    the line that restores [self.lump_sum]: the planner is left with the
    first midpoint, [(lump_sum + lump_sum * 10) / 2], as its capital. *)
Theorem solver_raise_leaves_midpoint {num : Type} {arith : Arith num}
    (self : RetirementPlanner num) (crash_rate : num) (crash_years : Z) :
  is_zero (sub (of_int 1) (tax_rate (self_inputs self))) = true ->
  1 <= self_horizon_months self ->
  exists self',
    solve_required_capital crash_rate crash_years self
    = (Raise ZeroDivisionError, self') /\
    self_inputs self' = self_inputs self /\
    self_lump_sum self'
    = quot (add (self_lump_sum self) (mul (self_lump_sum self) (of_int 10)))
           (of_int 2).
Proof.
  intros Hz HH. eexists. split.
  - apply solve_required_capital_raise; assumption.
  - split; reflexivity.
Qed.

(** * Further properties in exact arithmetic *)

Section ExactExtras.

Local Open Scope Q_scope.

Variable self : RetirementPlanner Q.
Variable crash_rate : Q.
Variable crash_years : Z.


(** A month that leaves the flag true leaves a positive balance. *)
Lemma month_solvent_positive (m : Z) (st st' : Locals Q) :
  month self crash_rate crash_years m st = Ok st' ->
  is_solvent st' = true ->
  is_solvent st = true /\ 0 < balance st'.
Proof.
  intros H Hs. apply month_Q in H as (w & _ & _ & _ & Hcase).
  cbv zeta in Hcase.
  destruct Hcase as [(_ & _ & _ & Hf) | (Hn & Hb & Hflag)]; [congruence|].
  rewrite Hs in Hflag. split; [congruence|].
  rewrite Hb. apply Qnot_le_lt. intros Hc. apply Hn. split; congruence.
Qed.


Hypothesis tax_below_1 : tax_rate (self_inputs self) < 1.
Hypothesis crash_floor : -12 <= crash_rate.
Hypothesis return_floor : -12 <= expected_return (self_inputs self).

(** A month of a depleted run leaves a balance that is not positive. *)
Lemma month_depleted_nonpositive (m : Z) (st st' : Locals Q) :
  (is_solvent st = false -> balance st <= 0) ->
  month self crash_rate crash_years m st = Ok st' ->
  is_solvent st' = false -> balance st' <= 0.
Proof.
  intros Hinv H Hs'. apply month_Q in H as (w & Hw & _ & _ & Hcase).
  pose proof (gross_withdrawal_nonneg self _ _ w tax_below_1 Hw) as Hw0.
  pose proof (monthly_rate_Q self crash_rate crash_years (year_of m)) as Hr.
  cbv zeta in Hcase.
  set (r := monthly_rate_of self crash_rate crash_years (year_of m)) in *.
  assert (Hr1 : 0 <= 1 + r)
    by (destruct (year_of m <=? crash_years)%Z; lra).
  destruct Hcase as [(_ & _ & -> & _) | (_ & Hb & Hflag)]; [lra|].
  rewrite Hs' in Hflag. symmetry in Hflag. specialize (Hinv Hflag).
  rewrite Hb. nra.
Qed.


End ExactExtras.

Section CapitalExtras.

Local Open Scope Q_scope.

Variable self : RetirementPlanner Q.
Variable crash_rate : Q.
Variable crash_years : Z.

(** A planner built from inputs with another capital runs the simulator
    as the planner whose [lump_sum] has been assigned that capital. *)
Lemma calculate_viability_set_capital (inputs : Inputs Q) (c : Q)
    (cr : Q) (cy : Z) :
  calculate_viability (init (set_capital inputs c)) cr cy
  = calculate_viability (with_lump_sum (init inputs) c) cr cy.
Proof. reflexivity. Qed.


(** When the upper end is insolvent no midpoint is solvent, and the upper
    end of the bracket never moves. *)
Lemma bisection_never_solvent (n : nat) (low high : Q) :
  tax_rate (self_inputs self) < 1 ->
  0 <= low -> low <= high ->
  solvent_at self crash_rate crash_years high = false ->
  snd (bisection (solvent_at self crash_rate crash_years) n low high) = high.
Proof.
  intros Ht. revert low. induction n as [|n IH]; intros low H0 Hle Hhigh.
  - reflexivity.
  - cbn [bisection]. pose proof (midpoint_Q low high) as Hmid.
    set (mid := quot (add low high) (of_int 2)) in *.
    destruct (solvent_at self crash_rate crash_years mid) eqn:E.
    + assert (Hc : solvent_at self crash_rate crash_years high = true).
      { apply (solvent_at_mono self crash_rate crash_years mid high);
          auto; lra. }
      congruence.
    + apply IH; auto; lra.
Qed.



End CapitalExtras.

Section CapitalMonotonicity.

Local Open Scope Q_scope.

Variable inputs : Inputs Q.
Variable crash_rate : Q.
Variable crash_years : Z.



End CapitalMonotonicity.


Section ScriptExtras.

Local Open Scope Q_scope.


(** A solvent run of at least one month ends on a positive balance. *)
Lemma solvent_final_balance_positive (self : RetirementPlanner Q)
    (crash_rate : Q) (crash_years : Z) (st : Locals Q) :
  (1 <= self_horizon_months self)%Z ->
  run_months self crash_rate crash_years (self_horizon_months self) = Ok st ->
  is_solvent st = true -> 0 < balance st.
Proof.
  intros HH Hrun Hs.
  rewrite (run_months_split self _ _ (self_horizon_months self - 1)
             (self_horizon_months self)) in Hrun by lia.
  apply bind_ok_inv in Hrun as (st0 & _ & Hlast).
  replace (self_horizon_months self - 1 + 1)%Z
    with (self_horizon_months self) in Hlast by lia.
  rewrite range_snoc, range_nil in Hlast by lia.
  cbn [for_each app] in Hlast.
  apply bind_ok_inv in Hlast as (st1 & Hm & Heq). apply Ok_inj in Heq.
  subst st1.
  apply (month_solvent_positive self crash_rate crash_years _ st0 st Hm Hs).
Qed.


End ScriptExtras.

(** * Instances of the further properties *)

(** The plan that is spent in its first month, after months 1 and 24. *)
Lemma flag_and_message_persist_witness :
  let self := init (@spent_at_once Q _) in
  exists st st',
    run_months self (of_int 0) 0 1 = Ok st /\
    run_months self (of_int 0) 0 24 = Ok st' /\
    (is_solvent st = false ->
     is_solvent st' = false /\ insolvency_msg st' = insolvency_msg st).
Proof.
  intros self. apply (flag_and_message_persist self (of_int 0) 0 1 24).
  - vm_compute. reflexivity.
  - lia.
Defined.

(** The plan that is spent in its first month. *)
Lemma status_matches_flag_witness :
  let self := init (@spent_at_once Q _) in
  exists rows solvent msg,
    calculate_viability self (of_int 0) 0 = Ok (rows, solvent, msg) /\
    if solvent then msg = "Solvent"%string
    else exists y, 1 <= y <= year_of (self_horizon_months self) /\
                   msg = depleted_msg y.
Proof.
  intros self. apply (status_matches_flag self (of_int 0) 0).
  vm_compute. reflexivity.
Defined.

(** The default scenario: 25 years. *)
Lemma one_row_per_year_witness :
  exists rows solvent msg,
    calculate_viability (init (@golden Q _)) (of_int 0) 0
    = Ok (rows, solvent, msg) /\
    map Year rows = range 1 (horizon_years (@golden Q _) + 1) /\
    List.length rows = Z.to_nat (horizon_years (@golden Q _)).
Proof.
  apply (one_row_per_year golden (of_int 0) 0).
  - vm_compute. reflexivity.
  - vm_compute. discriminate.
Defined.

(** A horizon of 0 years, at a tax rate of 100%. *)
Lemma empty_horizon_witness :
  calculate_viability (init (@no_horizon Q _)) (of_int 0) 0
  = Ok ([], true, "Solvent"%string).
Proof.
  apply (empty_horizon (init no_horizon) (of_int 0) 0).
  vm_compute. discriminate.
Defined.

(** Year 2 of the plan that is spent in its first month. *)
Lemma row_holds_year_end_balance_witness :
  let self := init (@spent_at_once Q _) in
  exists st rows solvent msg,
    run_months self (of_int 0) 0 (12 * 2) = Ok st /\
    calculate_viability self (of_int 0) 0 = Ok (rows, solvent, msg) /\
    balance_at_year 2 rows = Some (balance st).
Proof.
  intros self. apply (row_holds_year_end_balance self (of_int 0) 0 2).
  - vm_compute. reflexivity.
  - lia.
  - vm_compute. discriminate.
Defined.

(** The default scenario: inflation 2.5%. *)
Lemma rows_show_escalated_expenses_witness :
  let self := init (@golden Q _) in
  exists rows solvent msg,
    calculate_viability self (of_int 0) 0 = Ok (rows, solvent, msg) /\
    Forall (fun r => Expenses_Net r
                     = escalated (inflation_rate (self_inputs self))
                                 (Z.to_nat (Year r - 1))
                                 (target_payout (self_inputs self)))
           rows.
Proof.
  intros self. apply (rows_show_escalated_expenses self (of_int 0) 0).
  vm_compute. reflexivity.
Defined.


(** A shock of -20% for 0 years on the default scenario. *)
Lemma shock_of_no_duration_witness :
  calculate_viability (init (@golden Q _)) shock_rate 0
  = calculate_viability (init (@golden Q _)) (of_int 0) 0.
Proof.
  apply (shock_of_no_duration (init golden) shock_rate 0). lia.
Defined.





(** The default scenario taxed at 100%. *)
Lemma solver_raise_leaves_midpoint_witness :
  let self := init (@fully_taxed Q _) in
  exists self',
    solve_required_capital (of_int 0) 0 self
    = (Raise ZeroDivisionError, self') /\
    self_inputs self' = self_inputs self /\
    self_lump_sum self'
    = quot (add (self_lump_sum self) (mul (self_lump_sum self) (of_int 10)))
           (of_int 2).
Proof.
  intros self. apply (solver_raise_leaves_midpoint self (of_int 0) 0).
  - vm_compute. reflexivity.
  - vm_compute. discriminate.
Defined.





